(** * bike-tracker: build_snapshot.mjs

    A shallow embedding of the history maintenance and of the delta and
    window aggregation of [build_snapshot.mjs], with the properties of its
    specification.

    JavaScript numbers are modelled as [Z]: timestamps are integer
    milliseconds, counts are integers.  JavaScript objects used as
    dictionaries ([history.stations], [latest], [byStation], [hourly]) are
    [gmap string _], station ids being ordinary property names; arrays are
    lists.  The mutations of [history] are written as a history passed from
    one step to the next. *)

From Stdlib Require Import ZArith Sorted.
From stdpp Require Import gmap strings list fin_maps sorting pretty.

Local Open Scope Z_scope.

(** ** Data model *)

(** One observation [{t, bikes}] of a station. *)
Record Sample := mkSample { t : Z; bikes : Z }.

(** One derived event [{t, delta}]; the field [t] of the source is [e_t]
    here, as [t] names the field of [Sample]. *)
Record DeltaEvent := mkDelta { e_t : Z; delta : Z }.

#[global] Instance Sample_eq_dec : EqDecision Sample.
Proof. solve_decision. Defined.

#[global] Instance DeltaEvent_eq_dec : EqDecision DeltaEvent.
Proof. solve_decision. Defined.

(** [history.stations]: station id to sample series. *)
Abbreviation History := (gmap string (list Sample)).

(** A value found under [num_bikes_available] in the status feed: only
    what [typeof] can tell apart matters. *)
Inductive JsValue :=
| JNumber (n : Z)
| JString (s : string)
| JBool (b : bool)
| JNull
| JUndefined.

(** [typeof v === "number"], with the number when it is one. *)
Definition as_number (v : JsValue) : option Z :=
  match v with
  | JNumber n => Some n
  | _ => None
  end.

(** An entry of [status.data.stations]. *)
Record StationStatus := mkStatus {
  station_id : string;
  num_bikes_available : JsValue
}.

(** [const MEMORY_HRS = 36], [const SHORT_WIN_MS = 15 * 60 * 1000]. *)
Definition MEMORY_HRS : Z := 36.
Definition SHORT_WIN_MS : Z := 15 * 60 * 1000.

(** ** toDeltas (lines 42-51) *)

(** The body of the loop at index [i]: [out] after the iteration. *)
Definition toDeltas_body (samples : list Sample) (out : list DeltaEvent)
    (i : nat) : list DeltaEvent :=
  match samples !! (i - 1)%nat, samples !! i with
  | Some prev, Some curr =>
      let d := bikes curr - bikes prev in
      if bool_decide (d ≠ 0) then out ++ [mkDelta (t curr) d] else out
  | _, _ => out
  end.

(** [for (let i = 1; i < samples.length; i++)], starting from [out = []]. *)
Definition toDeltas (samples : list Sample) : list DeltaEvent :=
  foldl (toDeltas_body samples) [] (seq 1 (length samples - 1)).

(** The specification's reading of [derive]: the adjacent pairs of the
    series, in order, each giving an event when its delta is not zero. *)
Fixpoint adjacent_pairs (samples : list Sample) : list (Sample * Sample) :=
  match samples with
  | prev :: (curr :: _) as rest => (prev, curr) :: adjacent_pairs rest
  | _ => []
  end.

Definition pair_event (p : Sample * Sample) : DeltaEvent :=
  mkDelta (t p.2) (bikes p.2 - bikes p.1).

Definition derive_spec (samples : list Sample) : list DeltaEvent :=
  filter (λ e, delta e ≠ 0) (pair_event <$> adjacent_pairs samples).

(** ** sumNet (lines 53-61) *)

(** The backward scan, on the events still to visit (most recent first),
    with the running [net]; [break] returns the running total. *)
Fixpoint sumNet_scan (pending : list DeltaEvent) (fromMs toMs net : Z) : Z :=
  match pending with
  | [] => net
  | e :: older =>
      if bool_decide (e_t e < fromMs) then net
      else sumNet_scan older fromMs toMs
             (if bool_decide (e_t e ≤ toMs) then net + delta e else net)
  end.

(** [for (let i = deltas.length - 1; i >= 0; i--)] from [net = 0]. *)
Definition sumNet (deltas : list DeltaEvent) (fromMs toMs : Z) : Z :=
  sumNet_scan (reverse deltas) fromMs toMs 0.

(** The same scan, keeping the events it adds to [net] (most recent
    first) instead of their sum. *)
Fixpoint sumNet_counted (pending : list DeltaEvent) (fromMs toMs : Z)
    : list DeltaEvent :=
  match pending with
  | [] => []
  | e :: older =>
      if bool_decide (e_t e < fromMs) then []
      else if bool_decide (e_t e ≤ toMs)
           then e :: sumNet_counted older fromMs toMs
           else sumNet_counted older fromMs toMs
  end.

(** The events of the window [fromMs <= t <= toMs], and a sum of deltas. *)
Definition in_window (fromMs toMs : Z) (e : DeltaEvent) : Prop :=
  fromMs ≤ e_t e ∧ e_t e ≤ toMs.

#[global] Instance in_window_dec fromMs toMs e : Decision (in_window fromMs toMs e).
Proof. unfold in_window. apply _. Defined.

Definition sum_delta (es : list DeltaEvent) : Z :=
  foldr (λ e acc, delta e + acc) 0 es.

(** Events ordered ascending by timestamp. *)
Definition ascending (deltas : list DeltaEvent) : Prop :=
  StronglySorted (λ a b, e_t a ≤ e_t b) deltas.

(** [ascending], decided by evaluation. *)
Definition ascendingb (deltas : list DeltaEvent) : bool :=
  (fix go (l : list DeltaEvent) : bool :=
     match l with
     | [] => true
     | a :: rest => forallb (λ b, bool_decide (e_t a ≤ e_t b)) rest && go rest
     end) deltas.

(** ** Ingestion (lines 81-100) *)

(** [latest]: the status entries whose count is a number, later entries
    of a station overwriting earlier ones. *)
Definition latest_step (latest : gmap string Z) (s : StationStatus)
    : gmap string Z :=
  match as_number (num_bikes_available s) with
  | Some n => <[station_id s := n]> latest
  | None => latest
  end.

Definition build_latest (stationsStatus : list StationStatus) : gmap string Z :=
  foldl latest_step ∅ stationsStatus.

(** Lines 94-99: the series is created when absent, and the sample is
    pushed when the series is empty or its last sample is older than one
    minute. *)
Definition append (history : History) (id : string) (bikes now : Z) : History :=
  let history1 :=
    match history !! id with
    | Some _ => history
    | None => <[id := []]> history
    end in
  let arr := default [] (history1 !! id) in
  if bool_decide (length arr = 0%nat)
     || match last arr with
        | Some l => bool_decide (t l < now - 60 * 1000)
        | None => false
        end
  then <[id := arr ++ [mkSample now bikes]]> history1
  else history1.

(** One iteration of the loop of lines 90-100; [stationsInfo] is the list
    of the [station_id]s of [info.data.stations], in order.  [latest[id]]
    is a number or undefined. *)
Definition ingest_step (latest : gmap string Z) (now : Z)
    (history : History) (id : string) : History :=
  match latest !! id with
  | Some bikes => append history id bikes now
  | None => history
  end.

Definition ingest (stationsInfo : list string) (latest : gmap string Z)
    (now : Z) (history : History) : History :=
  foldl (ingest_step latest now) history stationsInfo.

(** ** Pruning (saveHistory, lines 31-37) *)

Definition prune_step (cutoff : Z) (history : History) (id : string) : History :=
  match history !! id with
  | Some series =>
      let kept := filter (λ s, cutoff ≤ t s) series in
      let history1 := <[id := kept]> history in
      if bool_decide (length kept = 0%nat) then delete id history1 else history1
  | None => history
  end.

(** The loop over the keys of [history.stations], with the retention
    hours as a parameter. *)
Definition prune (history : History) (now retentionHours : Z) : History :=
  let cutoff := now - retentionHours * 60 * 60 * 1000 in
  foldl (prune_step cutoff) history (map_to_list history).*1.

Definition saveHistory (history : History) (now : Z) : History :=
  prune history now MEMORY_HRS.

(** ** The snapshot (lines 102-158) *)

Inductive Window := Day | Hour | Now.

(** [const publishWindow = "day"]. *)
Definition publishWindow : Window := Day.

(** [{pickups, returns}]: the totals, and one hourly bucket. *)
Record Counts := mkCounts { pickups : Z; returns : Z }.

Record Snapshot := mkSnapshot {
  generated_at : Z;
  window : Window;
  short_window_minutes : Z;
  stations : list (string * Z);
  totals : Counts;
  hourly : gmap string Counts
}.

(** The state of the loop of lines 113-134. *)
Record NetState := mkNetState {
  byStation : gmap string Z;
  totPickups : Z;
  totReturns : Z
}.

Definition select_net (w : Window) (net_day net_hour net_now : Z) : Z :=
  match w with
  | Hour => net_hour
  | Now => net_now
  | Day => net_day
  end.

Section Run.
(** The local-time operations of the runtime's [Date]: [midnight] and
    [hourStart] (lines 63-72) and the hour key of line 145 depend on the
    time zone of the process. *)
Variables (midnight hourStart : Z → Z) (hourKey : Z → string).

(** Lines 118-128. *)
Definition station_net (w : Window) (now : Z) (samples : list Sample) : Z :=
  let deltas := toDeltas samples in
  let net_day := sumNet deltas (midnight now) now in
  let net_hour := sumNet deltas (hourStart now) now in
  let net_now := sumNet deltas (now - SHORT_WIN_MS) now in
  select_net w net_day net_hour net_now.

(** One iteration of the loop of lines 113-134. *)
Definition net_step (w : Window) (now : Z) (history : History)
    (st : NetState) (id : string) : NetState :=
  match history !! id with
  | None => st
  | Some samples =>
      if bool_decide (length samples < 2)%nat then st
      else
        let net := station_net w now samples in
        if bool_decide (net ≠ 0) then
          {| byStation := <[id := net]> (byStation st);
             totPickups := if bool_decide (net < 0)
                           then totPickups st + (- net) else totPickups st;
             totReturns := if bool_decide (net < 0)
                           then totReturns st else totReturns st + net |}
        else st
  end.

Definition compute_nets (w : Window) (now : Z) (history : History)
    (stationsInfo : list string) : NetState :=
  foldl (net_step w now history) (mkNetState ∅ 0 0) stationsInfo.

(** Lines 144-147, for one event. *)
Definition hourly_event (hourly : gmap string Counts) (e : DeltaEvent)
    : gmap string Counts :=
  let key := hourKey (e_t e) in
  let hourly1 :=
    match hourly !! key with
    | Some _ => hourly
    | None => <[key := mkCounts 0 0]> hourly
    end in
  let b := default (mkCounts 0 0) (hourly1 !! key) in
  if bool_decide (delta e < 0)
  then <[key := mkCounts (pickups b + (- delta e)) (returns b)]> hourly1
  else <[key := mkCounts (pickups b) (returns b + delta e)]> hourly1.

(** One iteration of the loop of lines 138-149. *)
Definition hourly_step (history : History) (hourly : gmap string Counts)
    (id : string) : gmap string Counts :=
  match history !! id with
  | None => hourly
  | Some samples =>
      if bool_decide (length samples < 2)%nat then hourly
      else foldl hourly_event hourly (toDeltas samples)
  end.

Definition compute_hourly (history : History) (stationsInfo : list string)
    : gmap string Counts :=
  foldl (hourly_step history) ∅ stationsInfo.

(** Lines 151-158; [Object.entries(byStation)] up to order. *)
Definition build_snapshot (w : Window) (now : Z) (history : History)
    (stationsInfo : list string) : Snapshot :=
  let st := compute_nets w now history stationsInfo in
  {| generated_at := now;
     window := w;
     short_window_minutes := 15;
     stations := map_to_list (byStation st);
     totals := mkCounts (totPickups st) (totReturns st);
     hourly := compute_hourly history stationsInfo |}.

(** One run: ingestion, snapshot, then the pruned history that is
    saved. *)
Definition run (w : Window) (history0 : History) (stationsInfo : list string)
    (stationsStatus : list StationStatus) (now : Z) : Snapshot * History :=
  let latest := build_latest stationsStatus in
  let history := ingest stationsInfo latest now history0 in
  (build_snapshot w now history stationsInfo, saveHistory history now).

Definition main := run publishWindow.
End Run.

(** ** What the specification sums *)

Definition sumZ (l : list Z) : Z := foldr Z.add 0 l.

(** Sum of [-net] over the published stations of negative net, and of
    [net] over those of positive net. *)
Definition published_pickups (sts : list (string * Z)) : Z :=
  sumZ ((λ p, - p.2) <$> filter (λ p, p.2 < 0) sts).

Definition published_returns (sts : list (string * Z)) : Z :=
  sumZ (snd <$> filter (λ p, 0 < p.2) sts).

(** The events derivable from the series of a station, and those of all
    the stations listed in the station information, in the order of the
    list (a station listed twice gives its events twice). *)
Definition station_events (history : History) (id : string) : list DeltaEvent :=
  toDeltas (default [] (history !! id)).

Definition all_events (history : History) (stationsInfo : list string)
    : list DeltaEvent :=
  stationsInfo ≫= station_events history.

(** Sum of the absolute values of the negative deltas, and sum of the
    positive deltas. *)
Definition events_pickups (es : list DeltaEvent) : Z :=
  sumZ ((λ e, - delta e) <$> filter (λ e, delta e < 0) es).

Definition events_returns (es : list DeltaEvent) : Z :=
  sumZ (delta <$> filter (λ e, 0 < delta e) es).

(** Consecutive samples more than one minute apart. *)
Fixpoint spaced (series : list Sample) : Prop :=
  match series with
  | prev :: (next :: _) as rest => t next - t prev > 60000 ∧ spaced rest
  | _ => True
  end.

(** Events strictly ascending in [t]. *)
Definition strictly_ascending (deltas : list DeltaEvent) : Prop :=
  StronglySorted (λ a b, e_t a < e_t b) deltas.

(** The series of a station, none being the empty one. *)
Definition series (history : History) (id : string) : list Sample :=
  default [] (history !! id).

(** The series is empty, or its last sample is older than [now - 60000]. *)
Definition stale (arr : list Sample) (now : Z) : Prop :=
  arr = [] ∨ ∃ l, last arr = Some l ∧ t l < now - 60000.

(** What the specification keeps of a series: the samples that are not
    older than the horizon, and no entry when none is left. *)
Definition retained (cutoff : Z) (entry : option (list Sample))
    : option (list Sample) :=
  match entry with
  | None => None
  | Some samples =>
      let kept := filter (λ s, ¬ t s < cutoff) samples in
      if decide (kept = []) then None else Some kept
  end.

Section Published.
Variables (midnight hourStart : Z → Z).

(** The net a listed station is published with: it has at least two
    samples and its net over the window is not zero. *)
Definition published_net (w : Window) (now : Z) (history : History)
    (id : string) : option Z :=
  let net := station_net midnight hourStart w now (series history id) in
  if decide ((2 ≤ length (series history id))%nat ∧ net ≠ 0)
  then Some net else None.

(** The stations that pass the test of line 130, one for each turn of
    the loop. *)
Definition published_turns (w : Window) (now : Z) (history : History)
    (stationsInfo : list string) : list (string * Z) :=
  omap (λ id, (λ net, (id, net)) <$> published_net w now history id)
       stationsInfo.
End Published.

(** A bucket after the events [es] of its hour are added to it. *)
Definition bucket_add (b : option Counts) (es : list DeltaEvent)
    : option Counts :=
  match es with
  | [] => b
  | _ =>
      let b0 := default (mkCounts 0 0) b in
      Some (mkCounts (pickups b0 + events_pickups es)
                     (returns b0 + events_returns es))
  end.


(** ** A concrete time zone: UTC *)

Definition MS_PER_HOUR : Z := 3600000.
Definition MS_PER_DAY : Z := 86400000.

Definition midnight_utc (ms : Z) : Z := ms - ms `mod` MS_PER_DAY.
Definition hourStart_utc (ms : Z) : Z := ms - ms `mod` MS_PER_HOUR.

(** Year, month and day of a day number counted from 1970-01-01. *)
Definition civil_of_days (days : Z) : Z * Z * Z :=
  let z := days + 719468 in
  let era := z `div` 146097 in
  let doe := z - era * 146097 in
  let yoe := (doe - doe `div` 1460 + doe `div` 36524 - doe `div` 146096) `div` 365 in
  let doy := doe - (365 * yoe + yoe `div` 4 - yoe `div` 100) in
  let mp := (5 * doy + 2) `div` 153 in
  let d := doy - (153 * mp + 2) `div` 5 + 1 in
  let m := if bool_decide (mp < 10) then mp + 3 else mp - 9 in
  let y := yoe + era * 400 + (if bool_decide (m ≤ 2) then 1 else 0) in
  (y, m, d).

(** [String(n).padStart(2, "0")]. *)
Definition pad2 (n : Z) : string :=
  let s := pretty n in
  if bool_decide (String.length s < 2)%nat then "0" +:+ s else s.

Definition hourKey_utc (ms : Z) : string :=
  let '(y, m, d) := civil_of_days (ms `div` MS_PER_DAY) in
  let h := (ms `mod` MS_PER_DAY) `div` MS_PER_HOUR in
  pretty y +:+ "-" +:+ pad2 m +:+ "-" +:+ pad2 d +:+ " " +:+ pad2 h.

(** ** Concrete runs, in UTC *)

(** A run at 2024-11-03 07:05:00 UTC on a history of one station sampled
    five minutes before, the station being listed once. *)
Definition single_run : Snapshot * History :=
  main midnight_utc hourStart_utc hourKey_utc
       {["a" := [mkSample 1730617200000 10]]}
       ["a"] [mkStatus "a" (JNumber 7)] 1730617500000.

(** The same run with the station listed twice in the station
    information. *)
Definition duplicate_run : Snapshot * History :=
  main midnight_utc hourStart_utc hourKey_utc
       {["a" := [mkSample 1730617200000 10]]}
       ["a"; "a"] [mkStatus "a" (JNumber 7)] 1730617500000.

(** The first run of all: an empty history and two stations with counts. *)
Definition first_run : Snapshot * History :=
  main midnight_utc hourStart_utc hourKey_utc ∅
       ["a"; "b"] [mkStatus "a" (JNumber 3); mkStatus "b" (JNumber 5)]
       1730617500000.

(** ** What the loops amount to *)

(** The numbers that the status feed gives for a station, in the order of
    the feed. *)
Definition status_numbers (stationsStatus : list StationStatus) (id : string)
    : list Z :=
  omap (λ s, if decide (station_id s = id)
             then as_number (num_bikes_available s) else None)
       stationsStatus.

(** The start of each window (lines 106-108); all three end at [now]. *)
Definition window_from (midnight hourStart : Z → Z) (w : Window) (now : Z) : Z :=
  match w with
  | Day => midnight now
  | Hour => hourStart now
  | Now => now - SHORT_WIN_MS
  end.

(** The sum of a count over all the hourly buckets. *)
Definition bucket_sum (g : Counts → Z) (hourly : gmap string Counts) : Z :=
  sumZ ((λ kb, g kb.2) <$> map_to_list hourly).

(** A run at 2024-11-03 07:05:00 UTC in which station ["b"] of the history
    is no longer listed. *)
Definition unlisted_run : Snapshot * History :=
  main midnight_utc hourStart_utc hourKey_utc
       {["a" := [mkSample 1730617200000 10];
         "b" := [mkSample 1730617000000 4; mkSample 1730617200000 6]]}
       ["a"] [mkStatus "a" (JNumber 7); mkStatus "b" (JNumber 9)]
       1730617500000.

(** ** The specification's words on the whole history *)



(** The histories of [unlisted_run] and of [duplicate_run] after the
    ingestion. *)
Definition unlisted_history : History :=
  ingest ["a"] (build_latest [mkStatus "a" (JNumber 7); mkStatus "b" (JNumber 9)])
         1730617500000
         {["a" := [mkSample 1730617200000 10];
           "b" := [mkSample 1730617000000 4; mkSample 1730617200000 6]]}.


(** * Properties *)

(** ** DeltaDeriver: [toDeltas] *)

Section toDeltas_facts.
Implicit Types (samples rest : list Sample) (out : list DeltaEvent).

(** The events of a series that follows a sample [prev]. *)
Lemma derive_spec_cons2 prev curr rest :
  derive_spec (prev :: curr :: rest) =
    (if bool_decide (bikes curr - bikes prev ≠ 0)
     then [mkDelta (t curr) (bikes curr - bikes prev)] else [])
    ++ derive_spec (curr :: rest).
Proof.
  unfold derive_spec. simpl adjacent_pairs. rewrite fmap_cons, filter_cons.
  unfold pair_event at 1 2. simpl.
  case_decide; case_bool_decide; done.
Qed.

(** The loop from index [length done + 1], where [done ++ [prev]] has been
    read, adds the events of [prev :: rest] to [out]. *)
Lemma toDeltas_loop done prev rest out :
  foldl (toDeltas_body (done ++ prev :: rest)) out
        (seq (S (length done)) (length rest))
  = out ++ derive_spec (prev :: rest).
Proof.
  revert done prev out.
  induction rest as [|curr rest IH]; intros done prev out.
  - simpl. by rewrite app_nil_r.
  - cbn [length seq foldl].
    replace (done ++ prev :: curr :: rest)
      with ((done ++ [prev]) ++ curr :: rest) by by rewrite <- app_assoc.
    replace (S (S (length done))) with (S (length (done ++ [prev])))
      by (rewrite length_app; simpl; lia).
    rewrite IH, derive_spec_cons2.
    unfold toDeltas_body.
    replace (S (length done) - 1)%nat with (length done) by lia.
    rewrite <- (app_assoc done [prev]). simpl.
    rewrite (list_lookup_middle done (curr :: rest) prev (length done)) by done.
    replace (S (length done)) with (length (done ++ [prev]) + 0)%nat
      by (rewrite length_app; simpl; lia).
    replace (done ++ prev :: curr :: rest)
      with ((done ++ [prev]) ++ curr :: rest) by by rewrite <- app_assoc.
    rewrite lookup_app_r by lia.
    replace (length (done ++ [prev]) + 0 - length (done ++ [prev]))%nat
      with 0%nat by lia.
    simpl. case_bool_decide; by rewrite <- ?app_assoc.
Qed.

Lemma toDeltas_derive_spec samples : toDeltas samples = derive_spec samples.
Proof.
  destruct samples as [|prev rest]; [done|].
  unfold toDeltas.
  replace (length (prev :: rest) - 1)%nat with (length rest) by (simpl; lia).
  apply (toDeltas_loop [] prev rest []).
Qed.

Lemma adjacent_pairs_length samples :
  length (adjacent_pairs samples) = (length samples - 1)%nat.
Proof.
  induction samples as [|prev [|curr rest] IH]; [done..|].
  simpl adjacent_pairs. simpl length in *. lia.
Qed.

Lemma adjacent_pairs_lookup samples i prev curr :
  adjacent_pairs samples !! i = Some (prev, curr)
  ↔ samples !! i = Some prev ∧ samples !! S i = Some curr.
Proof.
  revert i. induction samples as [|a [|b rest] IH]; intros i.
  - simpl. split; [done | by intros [? _]].
  - destruct i; simpl; (split; [done | by intros [_ ?]]).
  - destruct i as [|i].
    + simpl. split; [by intros [= -> ->] | by intros [[= ->] [= ->]]].
    + simpl adjacent_pairs. rewrite !lookup_cons. by rewrite IH.
Qed.
End toDeltas_facts.

(** C2. [toDeltas] emits, for each adjacent pair [(samples[i-1],
    samples[i])] in the order of the series, the event
    [{t: samples[i].t, delta: samples[i].bikes - samples[i-1].bikes}]
    exactly when that delta is not zero; the output has at most
    [samples.length - 1] events (the number of adjacent pairs: none for the
    empty series); a series of fewer than two samples gives the empty
    sequence. *)
Theorem toDeltas_adjacent_pairs (samples : list Sample) :
  toDeltas samples
    = filter (λ e, delta e ≠ 0) (pair_event <$> adjacent_pairs samples)
  ∧ (∀ i prev curr,
       adjacent_pairs samples !! i = Some (prev, curr)
       ↔ samples !! i = Some prev ∧ samples !! S i = Some curr)
  ∧ (∀ e, e ∈ toDeltas samples
       ↔ ∃ i prev curr,
           samples !! i = Some prev ∧ samples !! S i = Some curr
           ∧ bikes curr - bikes prev ≠ 0
           ∧ e = mkDelta (t curr) (bikes curr - bikes prev))
  ∧ (length (toDeltas samples) ≤ length samples - 1)%nat
  ∧ ((length samples < 2)%nat → toDeltas samples = []).
Proof.
  rewrite toDeltas_derive_spec. unfold derive_spec.
  split; [done|]. split; [apply adjacent_pairs_lookup|]. split; [|split].
  - intros e. rewrite list_elem_of_filter, list_elem_of_fmap. split.
    + intros (Hne & [prev curr] & -> & Hin).
      apply list_elem_of_lookup in Hin as [i Hi].
      apply adjacent_pairs_lookup in Hi as [Hp Hc].
      exists i, prev, curr. by repeat split.
    + intros (i & prev & curr & Hp & Hc & Hne & ->). split; [done|].
      exists (prev, curr). split; [done|].
      apply list_elem_of_lookup. exists i. by apply adjacent_pairs_lookup.
  - etrans; [apply length_filter|].
    by rewrite length_fmap, adjacent_pairs_length.
  - intros Hlen. by destruct samples as [|? [|? ?]]; simpl in *; [..|lia].
Qed.

(** A series of one sample has no event. *)
Lemma toDeltas_adjacent_pairs_witness :
  toDeltas [mkSample 0 10] = [].
Proof.
  apply (toDeltas_adjacent_pairs [mkSample 0 10]). simpl. lia.
Defined.

(** The scenario of the specification. *)
Example toDeltas_scenario :
  toDeltas [mkSample 0 10; mkSample 300000 7; mkSample 600000 9]
    = [mkDelta 300000 (-3); mkDelta 600000 2].
Proof. reflexivity. Qed.

(** ** WindowAggregator: [sumNet] *)

Section sumNet_facts.
Implicit Types (deltas pending : list DeltaEvent).

Lemma sum_delta_app deltas1 deltas2 :
  sum_delta (deltas1 ++ deltas2) = sum_delta deltas1 + sum_delta deltas2.
Proof.
  unfold sum_delta. induction deltas1 as [|e l IH]; simpl; [done|].
  rewrite IH. lia.
Qed.

Lemma sum_delta_reverse deltas : sum_delta (reverse deltas) = sum_delta deltas.
Proof.
  induction deltas as [|e l IH]; [done|].
  rewrite reverse_cons, sum_delta_app, IH. unfold sum_delta. simpl. lia.
Qed.

(** The scan returns the running total plus the events it counted. *)
Lemma sumNet_scan_counted pending fromMs toMs net :
  sumNet_scan pending fromMs toMs net
    = net + sum_delta (sumNet_counted pending fromMs toMs).
Proof.
  revert net. induction pending as [|e older IH]; intros net; simpl.
  - unfold sum_delta. simpl. lia.
  - case_bool_decide; [unfold sum_delta; simpl; lia|].
    rewrite IH. case_bool_decide; [|done].
    unfold sum_delta. simpl. lia.
Qed.

(** On events ordered descending, what is left after an event older than
    [fromMs] is out of the window. *)
Lemma descending_filter_older e older fromMs toMs :
  StronglySorted (λ a b, e_t b ≤ e_t a) (e :: older) →
  e_t e < fromMs →
  filter (in_window fromMs toMs) (e :: older) = [].
Proof.
  intros Hs Hlt. apply StronglySorted_cons in Hs as [Hall _].
  rewrite filter_cons. case_decide as Hin.
  { destruct Hin. lia. }
  clear Hin. induction older as [|x l IH]; [done|].
  apply Forall_cons in Hall as [Hx Hl].
  rewrite filter_cons. case_decide as Hin; [destruct Hin; lia|]. by apply IH.
Qed.

Lemma sumNet_counted_descending pending fromMs toMs :
  StronglySorted (λ a b, e_t b ≤ e_t a) pending →
  sumNet_counted pending fromMs toMs = filter (in_window fromMs toMs) pending.
Proof.
  induction pending as [|e older IH]; intros Hs; [done|].
  simpl. case_bool_decide as Hold.
  - symmetry. by apply descending_filter_older.
  - pose proof Hs as Hs'. apply StronglySorted_cons in Hs' as [_ Hs'].
    rewrite filter_cons, (IH Hs').
    case_bool_decide; case_decide as Hin; unfold in_window in Hin;
      try done; lia.
Qed.

Lemma ascending_reverse deltas :
  ascending deltas → StronglySorted (λ a b, e_t b ≤ e_t a) (reverse deltas).
Proof.
  unfold ascending. induction deltas as [|e l IH]; intros Hs.
  - constructor.
  - apply StronglySorted_cons in Hs as [Hall Hs]. rewrite reverse_cons.
    apply StronglySorted_app_2; [|by apply IH|repeat constructor].
    intros x1 x2 Hx1 ->%list_elem_of_singleton.
    rewrite elem_of_reverse in Hx1. rewrite Forall_forall in Hall. by apply Hall.
Qed.

Lemma ascendingb_ascending deltas : ascendingb deltas = true → ascending deltas.
Proof.
  unfold ascending. induction deltas as [|e l IH]; simpl; intros H.
  - constructor.
  - apply andb_prop in H as [Hall Hrest]. constructor; [by apply IH|].
    apply Forall_forall. intros x Hx.
    rewrite forallb_forall in Hall.
    apply list_elem_of_In in Hx. specialize (Hall x Hx).
    by apply bool_decide_eq_true in Hall.
Qed.
End sumNet_facts.

(** C1. On events ordered ascending by timestamp, [sumNet] is the sum of
    [delta] over exactly the events with [fromMs <= t <= toMs], whatever
    [fromMs] and [toMs] are: the events the backward scan adds are those of
    the window, none skipped by the early exit and none counted outside,
    and the result is 0 when no event is in the window. *)
Theorem sumNet_window (deltas : list DeltaEvent) (fromMs toMs : Z) :
  ascending deltas →
  sumNet deltas fromMs toMs
    = sum_delta (filter (in_window fromMs toMs) deltas)
  ∧ sumNet_counted (reverse deltas) fromMs toMs
    = reverse (filter (in_window fromMs toMs) deltas)
  ∧ sumNet deltas fromMs toMs
    = sum_delta (sumNet_counted (reverse deltas) fromMs toMs)
  ∧ (Forall (λ e, ¬ in_window fromMs toMs e) deltas →
     sumNet deltas fromMs toMs = 0).
Proof.
  intros Hasc. unfold sumNet. rewrite sumNet_scan_counted.
  rewrite (sumNet_counted_descending _ _ _ (ascending_reverse _ Hasc)).
  rewrite filter_reverse, sum_delta_reverse, Z.add_0_l.
  repeat split. intros Hnone.
  replace (filter (in_window fromMs toMs) deltas) with (@nil DeltaEvent); [done|].
  symmetry. clear Hasc. induction Hnone as [|e l He _ IH]; [done|].
  rewrite filter_cons. by case_decide.
Qed.

(** The scenario of the specification, and windows around it. *)
Lemma sumNet_window_witness :
  ascending [mkDelta 300000 (-3); mkDelta 600000 2]
  ∧ sumNet [mkDelta 300000 (-3); mkDelta 600000 2] 0 600000 = -1
  ∧ sumNet [mkDelta 300000 (-3); mkDelta 600000 2] 300001 600000 = 2
  ∧ sumNet [mkDelta 300000 (-3); mkDelta 600000 2] 700000 100 = 0.
Proof.
  assert (Hasc : ascending [mkDelta 300000 (-3); mkDelta 600000 2]).
  { apply ascendingb_ascending. reflexivity. }
  split; [exact Hasc|]. split; [|split].
  - exact (proj1 (sumNet_window _ 0 600000 Hasc)).
  - exact (proj1 (sumNet_window _ 300001 600000 Hasc)).
  - exact (proj1 (sumNet_window _ 700000 100 Hasc)).
Defined.

(** ** SampleStore: [append] and the ingestion loop *)

Section append_facts.
Implicit Types (history : History) (id : string) (arr : list Sample).

(** The test of line 97 decides [stale]. *)
Lemma stale_test arr now :
  bool_decide (length arr = 0%nat)
  || match last arr with
     | Some l => bool_decide (t l < now - 60 * 1000)
     | None => false
     end = true
  ↔ stale arr now.
Proof.
  unfold stale. rewrite orb_true_iff, bool_decide_eq_true. split.
  - intros [Hlen|Hlast]; [left; by apply nil_length_inv|right].
    destruct (last arr) as [l|]; [|done].
    apply bool_decide_eq_true in Hlast. exists l. split; [done|lia].
  - intros [->|(l & Hl & Hlt)]; [by left|right].
    rewrite Hl. apply bool_decide_eq_true. lia.
Qed.

Lemma stale_cases arr now : stale arr now ∨ ¬ stale arr now.
Proof.
  rewrite <- stale_test.
  destruct (bool_decide (length arr = 0%nat) || _); [by left|by right].
Qed.

Lemma append_stale history id bikes now :
  stale (series history id) now →
  append history id bikes now
    = <[id := series history id ++ [mkSample now bikes]]> history.
Proof.
  intros Hst. unfold append, series in *.
  destruct (history !! id) as [arr|] eqn:Hid; simpl in *.
  - rewrite Hid. simpl. apply stale_test in Hst. by rewrite Hst.
  - rewrite lookup_insert_eq. simpl. by rewrite insert_insert_eq.
Qed.

Lemma append_stale_series history id bikes now :
  stale (series history id) now →
  series (append history id bikes now) id
    = series history id ++ [mkSample now bikes].
Proof.
  intros Hst. rewrite (append_stale _ _ _ _ Hst).
  unfold series at 1. by rewrite lookup_insert_eq.
Qed.

Lemma append_fresh history id bikes now :
  ¬ stale (series history id) now →
  append history id bikes now = history.
Proof.
  intros Hst. unfold append, series in *.
  destruct (history !! id) as [arr|] eqn:Hid; simpl in *.
  - rewrite Hid. simpl. rewrite <- stale_test in Hst.
    by apply not_true_is_false in Hst as ->.
  - destruct Hst. by left.
Qed.

Lemma append_other history id id' bikes now :
  id' ≠ id → append history id bikes now !! id' = history !! id'.
Proof.
  intros Hne. destruct (stale_cases (series history id) now) as [Hst|Hst].
  - rewrite (append_stale _ _ _ _ Hst). by apply lookup_insert_ne.
  - by rewrite (append_fresh _ _ _ _ Hst).
Qed.

Lemma spaced_snoc arr s :
  spaced arr → (∀ l, last arr = Some l → t s - t l > 60000) →
  spaced (arr ++ [s]).
Proof.
  induction arr as [|a [|b rest] IH]; intros Hsp Hlast.
  - done.
  - simpl. split; [|done]. by apply Hlast.
  - destruct Hsp as [Hab Hsp]. split; [done|]. apply IH; [done|].
    intros l Hl. by apply Hlast.
Qed.

(** The events of a spaced series are later than its first sample, and
    strictly ascending. *)
Lemma derive_spec_spaced prev rest :
  spaced (prev :: rest) →
  Forall (λ e, t prev < e_t e) (derive_spec (prev :: rest))
  ∧ strictly_ascending (derive_spec (prev :: rest)).
Proof.
  unfold strictly_ascending. revert prev.
  induction rest as [|curr rest IH]; intros prev Hsp.
  - split; constructor.
  - destruct Hsp as [Hgap Hsp]. destruct (IH curr Hsp) as [Hlater Hsorted].
    rewrite derive_spec_cons2. split.
    + apply Forall_app. split.
      * case_bool_decide; repeat constructor. simpl. lia.
      * eapply Forall_impl; [exact Hlater|]. simpl. intros e He. lia.
    + case_bool_decide; [|done]. simpl. by constructor.
Qed.
End append_facts.

(** C4. [append] pushes [{t: now, bikes}] onto the station's series if and
    only if the series is empty or its last sample is older than
    [now - 60000]; so a call within 60 seconds of the last sample's
    timestamp, and a second call within 60 seconds of a first one that
    pushed, leave the series as it is, whatever the count. *)
Theorem append_debounce (history : History) (id : string) (bikes now : Z) :
  (stale (series history id) now →
     series (append history id bikes now) id
       = series history id ++ [mkSample now bikes])
  ∧ (¬ stale (series history id) now →
     append history id bikes now = history)
  ∧ (series (append history id bikes now) id
       = series history id ++ [mkSample now bikes]
     ↔ stale (series history id) now)
  ∧ (∀ l, last (series history id) = Some l → now - t l ≤ 60000 →
     length (series (append history id bikes now) id)
       = length (series history id))
  ∧ (∀ bikes2 now2, stale (series history id) now → now2 - now ≤ 60000 →
     length (series (append (append history id bikes now) id bikes2 now2) id)
       = length (series (append history id bikes now) id)).
Proof.
  assert (Hpush : stale (series history id) now →
    series (append history id bikes now) id
      = series history id ++ [mkSample now bikes]).
  { intros Hst. rewrite (append_stale _ _ _ _ Hst).
    unfold series at 1. by rewrite lookup_insert_eq. }
  assert (Hrecent : ∀ h b n l, last (series h id) = Some l → n - t l ≤ 60000 →
    append h id b n = h).
  { intros h b n l Hl Hle. apply append_fresh.
    intros [Hnil|(l' & Hl' & Hlt)].
    - by rewrite Hnil in Hl.
    - rewrite Hl in Hl'. injection Hl' as <-. lia. }
  split; [done|]. split; [apply append_fresh|]. split; [|split].
  - split; [|done]. intros Heq.
    destruct (stale_cases (series history id) now) as [|Hst]; [done|].
    rewrite (append_fresh _ _ _ _ Hst) in Heq.
    apply (f_equal length) in Heq. rewrite length_app in Heq. simpl in Heq. lia.
  - intros l Hl Hle. by rewrite (Hrecent history bikes now l).
  - intros bikes2 now2 Hst Hle.
    rewrite (Hrecent _ bikes2 now2 (mkSample now bikes)); [done| |done].
    rewrite (Hpush Hst). apply last_snoc.
Qed.

Lemma append_debounce_witness :
  series (append {["a" := [mkSample 0 10]]} "a" 7 300000) "a"
    = [mkSample 0 10; mkSample 300000 7]
  ∧ append {["a" := [mkSample 0 10]]} "a" 7 60000 = {["a" := [mkSample 0 10]]}.
Proof.
  split.
  - rewrite (proj1 (append_debounce {["a" := [mkSample 0 10]]} "a" 7 300000));
      [reflexivity|].
    right. exists (mkSample 0 10). split; [reflexivity|simpl; lia].
  - apply (proj1 (proj2 (append_debounce {["a" := [mkSample 0 10]]} "a" 7 60000))).
    intros [Hnil|(l & Hl & Hlt)]; [vm_compute in Hnil; discriminate Hnil|].
    vm_compute in Hl. injection Hl as <-. simpl in Hlt. lia.
Defined.

(** C10. Appending for one station leaves the entry of every other station
    as it was: present or absent, and with the same samples. *)
Theorem append_frame (history : History) (id id' : string) (bikes now : Z) :
  id' ≠ id → append history id bikes now !! id' = history !! id'.
Proof. apply append_other. Qed.

Lemma append_frame_witness :
  append {["a" := [mkSample 0 10]]} "b" 4 300000 !! "a" = Some [mkSample 0 10].
Proof.
  rewrite (append_frame {["a" := [mkSample 0 10]]} "b" "a" 4 300000).
  - reflexivity.
  - discriminate.
Defined.

(** C9. On a series whose consecutive samples are more than 60000 ms
    apart, appending at a [now] that is not earlier than the last sample
    leaves the series unchanged or adds a sample more than 60000 ms after
    the last one; the series stays spaced, and its events are strictly
    ascending in [t]. *)
Theorem append_spaced (history : History) (id : string) (bikes now : Z) :
  spaced (series history id) →
  (∀ l, last (series history id) = Some l → t l ≤ now) →
  (series (append history id bikes now) id = series history id
   ∨ (series (append history id bikes now) id
        = series history id ++ [mkSample now bikes]
      ∧ ∀ l, last (series history id) = Some l → now - t l > 60000))
  ∧ spaced (series (append history id bikes now) id)
  ∧ strictly_ascending (toDeltas (series (append history id bikes now) id)).
Proof.
  intros Hsp _.
  assert (Hcases :
    (series (append history id bikes now) id = series history id
     ∨ (series (append history id bikes now) id
          = series history id ++ [mkSample now bikes]
        ∧ ∀ l, last (series history id) = Some l → now - t l > 60000))).
  { destruct (stale_cases (series history id) now) as [Hst|Hst].
    - right. split; [by apply append_stale_series|].
      intros l Hl. destruct Hst as [Hnil|(l' & Hl' & Hlt)].
      + by rewrite Hnil in Hl.
      + rewrite Hl in Hl'. injection Hl' as <-. lia.
    - left. by rewrite (append_fresh _ _ _ _ Hst). }
  assert (Hsp' : spaced (series (append history id bikes now) id)).
  { destruct Hcases as [->|[-> Hgap]]; [done|]. by apply spaced_snoc. }
  split; [done|]. split; [done|].
  rewrite toDeltas_derive_spec.
  destruct (series (append history id bikes now) id) as [|prev rest].
  - constructor.
  - by apply derive_spec_spaced.
Qed.

Lemma append_spaced_witness :
  spaced (series (append {["a" := [mkSample 0 10; mkSample 300000 7]]}
                         "a" 9 600000) "a").
Proof.
  apply (append_spaced {["a" := [mkSample 0 10; mkSample 300000 7]]} "a" 9 600000).
  - vm_compute. split; [reflexivity|exact I].
  - intros l Hl. vm_compute in Hl. injection Hl as <-. simpl. lia.
Defined.

Section ingest_facts.
Implicit Types (history : History) (latest : gmap string Z).

(** A status entry changes [latest] at its own station only, and only
    when its count is a number. *)
Lemma build_latest_skips stationsStatus latest id :
  (∀ s, s ∈ stationsStatus → station_id s = id →
        as_number (num_bikes_available s) = None) →
  foldl latest_step latest stationsStatus !! id = latest !! id.
Proof.
  revert latest.
  induction stationsStatus as [|s rest IH]; intros latest Hnon; [done|].
  simpl. rewrite IH.
  - unfold latest_step.
    destruct (as_number (num_bikes_available s)) as [n|] eqn:Hn; [|done].
    apply lookup_insert_ne. intros Heq.
    rewrite (Hnon s) in Hn; [done|by left|done].
  - intros s' Hs'. apply Hnon. by right.
Qed.

Lemma ingest_skips stationsInfo latest now history id :
  latest !! id = None →
  ingest stationsInfo latest now history !! id = history !! id.
Proof.
  intros Hnone. unfold ingest. revert history.
  induction stationsInfo as [|id' rest IH]; intros history; [done|].
  simpl. rewrite IH. unfold ingest_step.
  destruct (latest !! id') as [n|] eqn:Hid'; [|done].
  apply append_other. intros ->. by rewrite Hnone in Hid'.
Qed.
End ingest_facts.

(** C7. A station whose count is missing from the status feed, or is not a
    number there, has no entry in [latest]; its turn in the ingestion loop
    leaves the history as it is, and after the whole loop its entry is what
    it was (no sample pushed, no entry created).  The loop is a total
    function: it raises nothing. *)
Theorem ingest_skips_non_numeric (history : History)
    (stationsInfo : list string) (stationsStatus : list StationStatus)
    (now : Z) (id : string) :
  (∀ s, s ∈ stationsStatus → station_id s = id →
        as_number (num_bikes_available s) = None) →
  build_latest stationsStatus !! id = None
  ∧ (∀ h, ingest_step (build_latest stationsStatus) now h id = h)
  ∧ ingest stationsInfo (build_latest stationsStatus) now history !! id
      = history !! id.
Proof.
  intros Hnon.
  assert (Hnone : build_latest stationsStatus !! id = None).
  { unfold build_latest. by rewrite (build_latest_skips _ _ _ Hnon). }
  split; [done|]. split.
  - intros h. unfold ingest_step. by rewrite Hnone.
  - by apply ingest_skips.
Qed.

(** A [null] count and a missing status entry. *)
Lemma ingest_skips_non_numeric_witness :
  ingest ["a"; "b"; "c"]
         (build_latest [mkStatus "a" JNull; mkStatus "b" (JNumber 4)])
         300000 {["a" := [mkSample 0 10]]} !! "a"
    = Some [mkSample 0 10]
  ∧ ingest ["a"; "b"; "c"]
           (build_latest [mkStatus "a" JNull; mkStatus "b" (JNumber 4)])
           300000 {["a" := [mkSample 0 10]]} !! "c"
    = None.
Proof.
  assert (Ha : ∀ s, s ∈ [mkStatus "a" JNull; mkStatus "b" (JNumber 4)] →
                    station_id s = "a" →
                    as_number (num_bikes_available s) = None).
  { intros s Hs Hid. apply list_elem_of_In in Hs.
    destruct Hs as [<-|[<-|[]]]; [reflexivity|discriminate Hid]. }
  assert (Hc : ∀ s, s ∈ [mkStatus "a" JNull; mkStatus "b" (JNumber 4)] →
                    station_id s = "c" →
                    as_number (num_bikes_available s) = None).
  { intros s Hs Hid. apply list_elem_of_In in Hs.
    destruct Hs as [<-|[<-|[]]]; discriminate Hid. }
  split.
  - rewrite (proj2 (proj2 (ingest_skips_non_numeric
               {["a" := [mkSample 0 10]]} ["a"; "b"; "c"] _ 300000 "a" Ha))).
    reflexivity.
  - rewrite (proj2 (proj2 (ingest_skips_non_numeric
               {["a" := [mkSample 0 10]]} ["a"; "b"; "c"] _ 300000 "c" Hc))).
    reflexivity.
Defined.

(** ** SampleStore: pruning *)

Section prune_facts.
Implicit Types (history : History) (ids : list string).

(** The two ways of writing the kept samples agree. *)
Lemma kept_filter cutoff (samples : list Sample) :
  filter (λ s, cutoff ≤ t s) samples = filter (λ s, ¬ t s < cutoff) samples.
Proof. apply list_filter_iff. intros s. lia. Qed.

Lemma prune_step_lookup cutoff history id id' :
  prune_step cutoff history id !! id'
    = if decide (id = id') then retained cutoff (history !! id')
      else history !! id'.
Proof.
  unfold prune_step, retained. case_decide as Hid.
  - subst id'. destruct (history !! id) as [samples|] eqn:Hs.
    + rewrite <- kept_filter. case_bool_decide as Hlen.
      * apply nil_length_inv in Hlen. rewrite Hlen.
        rewrite decide_True by done. apply lookup_delete_eq.
      * rewrite decide_False by (intros Hnil; by rewrite Hnil in Hlen).
        apply lookup_insert_eq.
    + done.
  - destruct (history !! id) as [samples|]; [|done].
    case_bool_decide.
    + by rewrite lookup_delete_ne, lookup_insert_ne.
    + by rewrite lookup_insert_ne.
Qed.

(** Pruning the stations [ids], each once. *)
Lemma prune_loop_lookup cutoff ids history id :
  NoDup ids →
  foldl (prune_step cutoff) history ids !! id
    = if decide (id ∈ ids) then retained cutoff (history !! id)
      else history !! id.
Proof.
  intros Hnd. revert history.
  induction Hnd as [|id' ids Hnotin Hnd IH]; intros history.
  - cbn [foldl]. destruct (decide (id ∈ [])) as [Hin|_]; [|done].
    by apply elem_of_nil in Hin.
  - cbn [foldl]. rewrite IH, prune_step_lookup.
    destruct (decide (id' = id)) as [->|Hne].
    + destruct (decide (id ∈ ids)) as [Hin|_]; [done|].
      destruct (decide (id ∈ id :: ids)) as [_|Hnin]; [done|].
      destruct Hnin. by left.
    + destruct (decide (id ∈ ids)) as [Hin|Hnin];
        destruct (decide (id ∈ id' :: ids)) as [Hin'|Hnin']; try done.
      * destruct Hnin'. by right.
      * apply elem_of_cons in Hin' as [?|?]; congruence.
Qed.
End prune_facts.

(** C5. For every history, [now] and retention, pruning leaves under each
    station exactly the samples of its series that do not have
    [t < now - retentionHours * 3600000], in their order, and no entry at all
    for a station left without sample; stations without entry stay so.
    [saveHistory] prunes with a retention of 36 hours. *)
Theorem prune_retention (history : History) (now retentionHours : Z)
    (id : string) :
  prune history now retentionHours !! id
    = match history !! id with
      | None => None
      | Some samples =>
          let kept :=
            filter (λ s, ¬ t s < now - retentionHours * 3600000) samples in
          if decide (kept = []) then None else Some kept
      end
  ∧ saveHistory history now = prune history now 36.
Proof.
  split; [|done]. unfold prune.
  rewrite prune_loop_lookup by apply NoDup_fst_map_to_list.
  replace (now - retentionHours * 60 * 60 * 1000)
    with (now - retentionHours * 3600000) by lia.
  case_decide as Hin; [done|].
  destruct (history !! id) as [samples|] eqn:Hs; [|done].
  destruct Hin. apply list_elem_of_fmap. exists (id, samples).
  split; [done|]. by apply elem_of_map_to_list.
Qed.

Example prune_example :
  saveHistory {["a" := [mkSample 0 10; mkSample 200000000 7];
                "b" := [mkSample 5 3]]} 200000000
    = {["a" := [mkSample 200000000 7]]}.
Proof. vm_compute. reflexivity. Qed.

(** ** SnapshotBuilder: stations, totals and hourly buckets *)

Section run_facts.
Variables (midnight hourStart : Z → Z) (hourKey : Z → string).
Implicit Types (history : History) (st : NetState) (ids : list string).

Lemma toDeltas_short (samples : list Sample) :
  (length samples < 2)%nat → toDeltas samples = [].
Proof. intros Hlen. by destruct samples as [|? [|? ?]]; simpl in *; [..|lia]. Qed.

(** One turn of the loop of lines 113-134, by what it publishes. *)
Lemma net_step_published w now history st id :
  net_step midnight hourStart w now history st id
    = match published_net midnight hourStart w now history id with
      | Some net =>
          {| byStation := <[id := net]> (byStation st);
             totPickups := if bool_decide (net < 0)
                           then totPickups st + (- net) else totPickups st;
             totReturns := if bool_decide (net < 0)
                           then totReturns st else totReturns st + net |}
      | None => st
      end.
Proof.
  unfold net_step, published_net.
  destruct (history !! id) as [samples|] eqn:Hs.
  - replace (series history id) with samples by (unfold series; by rewrite Hs).
    destruct (decide (length samples < 2)%nat) as [Hlen|Hlen].
    + rewrite bool_decide_eq_true_2 by done.
      case_decide as Hpub; [|done]. destruct Hpub. lia.
    + rewrite bool_decide_eq_false_2 by done.
      destruct (decide (station_net midnight hourStart w now samples ≠ 0))
        as [Hnet|Hnet].
      * rewrite (bool_decide_eq_true_2 _ Hnet).
        case_decide as Hpub; [done|]. destruct Hpub. split; [lia|done].
      * rewrite (bool_decide_eq_false_2 _ Hnet).
        case_decide as Hpub; [|done]. by destruct Hpub.
  - replace (series history id) with (@nil Sample)
      by (unfold series; by rewrite Hs).
    case_decide as Hpub; [|done]. destruct Hpub as [Hlen _]. simpl in Hlen. lia.
Qed.

Lemma compute_nets_lookup w now history ids st id :
  byStation (foldl (net_step midnight hourStart w now history) st ids) !! id
    = if decide (id ∈ ids)
      then match published_net midnight hourStart w now history id with
           | Some net => Some net
           | None => byStation st !! id
           end
      else byStation st !! id.
Proof.
  revert st. induction ids as [|id' ids IH]; intros st.
  - cbn [foldl]. destruct (decide (id ∈ [])) as [Hin|_]; [|done].
    by apply elem_of_nil in Hin.
  - cbn [foldl]. rewrite IH, net_step_published.
    destruct (decide (id' = id)) as [->|Hne].
    + destruct (decide (id ∈ id :: ids)) as [_|Hnin]; [|destruct Hnin; by left].
      destruct (published_net midnight hourStart w now history id) as [net|];
        simpl; [|by destruct (decide (id ∈ ids))].
      rewrite lookup_insert_eq. by destruct (decide (id ∈ ids)).
    + assert (Hother :
        byStation
          match published_net midnight hourStart w now history id' with
          | Some net =>
              {| byStation := <[id' := net]> (byStation st);
                 totPickups := if bool_decide (net < 0)
                               then totPickups st + (- net) else totPickups st;
                 totReturns := if bool_decide (net < 0)
                               then totReturns st else totReturns st + net |}
          | None => st
          end !! id = byStation st !! id).
      { destruct (published_net midnight hourStart w now history id');
          simpl; [by apply lookup_insert_ne|done]. }
      rewrite Hother.
      destruct (decide (id ∈ ids)) as [Hin|Hnin];
        destruct (decide (id ∈ id' :: ids)) as [Hin'|Hnin']; try done.
      * destruct Hnin'. by right.
      * apply elem_of_cons in Hin' as [?|?]; congruence.
Qed.

Lemma sumZ_perm (l1 l2 : list Z) : l1 ≡ₚ l2 → sumZ l1 = sumZ l2.
Proof.
  unfold sumZ. induction 1 as [|x l l' _ IH|x y l|l l' l'' _ IH1 _ IH2];
    simpl; lia.
Qed.

Lemma published_pickups_perm (l1 l2 : list (string * Z)) :
  l1 ≡ₚ l2 → published_pickups l1 = published_pickups l2.
Proof. intros Hp. unfold published_pickups. apply sumZ_perm. by rewrite Hp. Qed.

Lemma published_returns_perm (l1 l2 : list (string * Z)) :
  l1 ≡ₚ l2 → published_returns l1 = published_returns l2.
Proof. intros Hp. unfold published_returns. apply sumZ_perm. by rewrite Hp. Qed.

Lemma published_pickups_cons id net (l : list (string * Z)) :
  published_pickups ((id, net) :: l)
    = (if bool_decide (net < 0) then - net else 0) + published_pickups l.
Proof.
  unfold published_pickups. rewrite filter_cons. simpl.
  case_decide; case_bool_decide; try done; simpl; lia.
Qed.

Lemma published_returns_cons id net (l : list (string * Z)) :
  net ≠ 0 →
  published_returns ((id, net) :: l)
    = (if bool_decide (net < 0) then 0 else net) + published_returns l.
Proof.
  intros Hne. unfold published_returns. rewrite filter_cons. simpl.
  case_decide; case_bool_decide; simpl; solve [done | lia].
Qed.

Lemma published_net_nonzero w now history id net :
  published_net midnight hourStart w now history id = Some net → net ≠ 0.
Proof.
  unfold published_net. case_decide as Hpub; [|done].
  intros [= <-]. by destruct Hpub.
Qed.

Lemma published_turns_cons w now history id ids :
  published_turns midnight hourStart w now history (id :: ids)
    = match published_net midnight hourStart w now history id with
      | Some net => [(id, net)]
      | None => []
      end ++ published_turns midnight hourStart w now history ids.
Proof.
  unfold published_turns. simpl.
  by destruct (published_net midnight hourStart w now history id).
Qed.

(** The totals are the sums over the turns of the loop that publish. *)
Lemma compute_nets_totals w now history ids st :
  totPickups (foldl (net_step midnight hourStart w now history) st ids)
    = totPickups st
      + published_pickups (published_turns midnight hourStart w now history ids)
  ∧ totReturns (foldl (net_step midnight hourStart w now history) st ids)
    = totReturns st
      + published_returns (published_turns midnight hourStart w now history ids).
Proof.
  revert st. induction ids as [|id ids IH]; intros st.
  - unfold published_pickups, published_returns. simpl. lia.
  - cbn [foldl]. destruct (IH (net_step midnight hourStart w now history st id))
      as [-> ->].
    rewrite net_step_published, published_turns_cons.
    destruct (published_net midnight hourStart w now history id) as [net|] eqn:Hn;
      [|done].
    apply published_net_nonzero in Hn. simpl.
    rewrite published_pickups_cons, published_returns_cons by done.
    case_bool_decide; lia.
Qed.

(** With every station listed once, the published stations are those of
    the turns. *)
Lemma compute_nets_stations w now history ids st :
  NoDup ids →
  (∀ id, id ∈ ids → byStation st !! id = None) →
  map_to_list
    (byStation (foldl (net_step midnight hourStart w now history) st ids))
  ≡ₚ published_turns midnight hourStart w now history ids
     ++ map_to_list (byStation st).
Proof.
  intros Hnd. revert st.
  induction Hnd as [|id ids Hnotin Hnd IH]; intros st Hfresh; [done|].
  cbn [foldl]. rewrite published_turns_cons, net_step_published.
  destruct (published_net midnight hourStart w now history id) as [net|].
  - rewrite IH.
    + simpl. rewrite map_to_list_insert by (apply Hfresh; by left).
      by rewrite Permutation_middle.
    + intros id' Hin. simpl. rewrite lookup_insert_ne by by intros ->.
      apply Hfresh. by right.
  - simpl. apply IH. intros id' Hin. apply Hfresh. by right.
Qed.

(** C8, as the code has it. A station is in the [stations] of the
    snapshot, with the net [net], if and only if it is listed in the
    station information, its series after the ingestion has at least two
    samples, and [net] is its net over the selected window and is not zero.
    So every published net is not zero, a listed station of net zero is
    left out, and so is every station that is not listed. *)
Theorem published_iff w (history0 : History) (stationsInfo : list string)
    (stationsStatus : list StationStatus) (now : Z) (id : string) (net : Z) :
  (id, net) ∈ stations
      (run midnight hourStart hourKey w history0 stationsInfo
           stationsStatus now).1
  ↔ id ∈ stationsInfo
    ∧ (2 ≤ length (series (ingest stationsInfo (build_latest stationsStatus)
                                  now history0) id))%nat
    ∧ net = station_net midnight hourStart w now
              (series (ingest stationsInfo (build_latest stationsStatus)
                              now history0) id)
    ∧ net ≠ 0.
Proof.
  unfold run, build_snapshot, compute_nets. cbn [fst stations].
  rewrite elem_of_map_to_list, compute_nets_lookup. cbn [byStation].
  rewrite lookup_empty. unfold published_net.
  destruct (decide (id ∈ stationsInfo)) as [Hin|Hnin].
  - case_decide as Hpub.
    + split; [intros [= <-]; tauto|]. by intros (_ & _ & -> & _).
    + split; [done|]. intros (_ & Hlen & -> & Hne). tauto.
  - split; [done|tauto].
Qed.

(** C3, as the code has it. When no station id is listed twice in the
    station information, [totals.pickups] is the sum of [-net] over the
    published stations of negative net, and [totals.returns] the sum of
    [net] over those of positive net. *)
Theorem totals_published w (history0 : History) (stationsInfo : list string)
    (stationsStatus : list StationStatus) (now : Z) :
  NoDup stationsInfo →
  pickups (totals (run midnight hourStart hourKey w history0 stationsInfo
                       stationsStatus now).1)
    = published_pickups
        (stations (run midnight hourStart hourKey w history0 stationsInfo
                       stationsStatus now).1)
  ∧ returns (totals (run midnight hourStart hourKey w history0 stationsInfo
                         stationsStatus now).1)
    = published_returns
        (stations (run midnight hourStart hourKey w history0 stationsInfo
                       stationsStatus now).1).
Proof.
  intros Hnd. unfold run, build_snapshot, compute_nets.
  cbn [fst stations totals pickups returns].
  set (history := ingest stationsInfo (build_latest stationsStatus) now history0).
  destruct (compute_nets_totals w now history stationsInfo (mkNetState ∅ 0 0))
    as [-> ->].
  pose proof (compute_nets_stations w now history stationsInfo
                (mkNetState ∅ 0 0) Hnd (λ id _, lookup_empty id)) as Hperm.
  cbn [byStation] in Hperm. rewrite map_to_list_empty, app_nil_r in Hperm.
  rewrite (published_pickups_perm _ _ Hperm), (published_returns_perm _ _ Hperm).
  cbn [totPickups totReturns]. lia.
Qed.

(** *** Hourly buckets *)

Lemma events_pickups_cons e (es : list DeltaEvent) :
  events_pickups (e :: es)
    = (if bool_decide (delta e < 0) then - delta e else 0) + events_pickups es.
Proof.
  unfold events_pickups. rewrite filter_cons.
  case_decide; case_bool_decide; simpl; solve [done | lia].
Qed.

Lemma events_returns_cons e (es : list DeltaEvent) :
  events_returns (e :: es)
    = (if bool_decide (delta e < 0) then 0 else delta e) + events_returns es.
Proof.
  unfold events_returns. rewrite filter_cons.
  case_decide; case_bool_decide; simpl; solve [done | lia].
Qed.

Lemma events_pickups_app (es1 es2 : list DeltaEvent) :
  events_pickups (es1 ++ es2) = events_pickups es1 + events_pickups es2.
Proof.
  induction es1 as [|e es1 IH]; [done|].
  rewrite <- app_comm_cons, !events_pickups_cons, IH. lia.
Qed.

Lemma events_returns_app (es1 es2 : list DeltaEvent) :
  events_returns (es1 ++ es2) = events_returns es1 + events_returns es2.
Proof.
  induction es1 as [|e es1 IH]; [done|].
  rewrite <- app_comm_cons, !events_returns_cons, IH. lia.
Qed.

Lemma bucket_add_app b (es1 es2 : list DeltaEvent) :
  bucket_add (bucket_add b es1) es2 = bucket_add b (es1 ++ es2).
Proof.
  destruct es1 as [|e1 es1]; [done|]. destruct es2 as [|e2 es2].
  - by rewrite app_nil_r.
  - rewrite <- app_comm_cons. unfold bucket_add. cbn [from_option Datatypes.id pickups returns].
    rewrite (app_comm_cons es1), events_pickups_app, events_returns_app.
    f_equal. f_equal; lia.
Qed.

(** One event changes the bucket of its own hour only. *)
Lemma hourly_event_lookup (h : gmap string Counts) e key :
  hourly_event hourKey h e !! key
    = if decide (hourKey (e_t e) = key) then bucket_add (h !! key) [e]
      else h !! key.
Proof.
  unfold hourly_event. case_decide as Hkey.
  - subst key. unfold bucket_add.
    rewrite events_pickups_cons, events_returns_cons.
    destruct (h !! hourKey (e_t e)) as [b|] eqn:Hb.
    + rewrite Hb. cbn [default]. unfold events_pickups, events_returns.
      case_bool_decide; rewrite lookup_insert_eq; simpl; do 2 f_equal; lia.
    + rewrite lookup_insert_eq. cbn [default].
      unfold events_pickups, events_returns.
      case_bool_decide; rewrite lookup_insert_eq; simpl; do 2 f_equal; lia.
  - destruct (h !! hourKey (e_t e)) as [b|] eqn:Hb.
    + case_bool_decide; by rewrite lookup_insert_ne.
    + case_bool_decide; by rewrite !lookup_insert_ne.
Qed.

Lemma hourly_events_lookup (es : list DeltaEvent) (h : gmap string Counts) key :
  foldl (hourly_event hourKey) h es !! key
    = bucket_add (h !! key) (filter (λ e, hourKey (e_t e) = key) es).
Proof.
  revert h. induction es as [|e es IH]; intros h; [done|].
  cbn [foldl]. rewrite IH, hourly_event_lookup, filter_cons.
  case_decide; [|done]. by rewrite bucket_add_app.
Qed.

Lemma hourly_step_lookup history (h : gmap string Counts) id key :
  hourly_step hourKey history h id !! key
    = bucket_add (h !! key)
        (filter (λ e, hourKey (e_t e) = key) (station_events history id)).
Proof.
  unfold hourly_step, station_events.
  destruct (history !! id) as [samples|]; [|done].
  cbn [from_option Datatypes.id].
  case_bool_decide as Hlen; [|apply hourly_events_lookup].
  by rewrite (toDeltas_short _ Hlen).
Qed.

Lemma compute_hourly_lookup history ids (h : gmap string Counts) key :
  foldl (hourly_step hourKey history) h ids !! key
    = bucket_add (h !! key)
        (filter (λ e, hourKey (e_t e) = key) (all_events history ids)).
Proof.
  revert h. induction ids as [|id ids IH]; intros h; [done|].
  cbn [foldl]. unfold all_events in *.
  rewrite IH, hourly_step_lookup, bind_cons, filter_app.
  by rewrite bucket_add_app.
Qed.

End run_facts.

(** ** The runs in UTC *)

Lemma totals_published_witness :
  NoDup ["a"]
  ∧ pickups (totals single_run.1) = published_pickups (stations single_run.1)
  ∧ returns (totals single_run.1) = published_returns (stations single_run.1).
Proof.
  assert (Hnd : NoDup ["a"]) by (apply NoDup_singleton).
  split; [exact Hnd|].
  exact (totals_published midnight_utc hourStart_utc hourKey_utc publishWindow
           {["a" := [mkSample 1730617200000 10]]} ["a"]
           [mkStatus "a" (JNumber 7)] 1730617500000 Hnd).
Defined.

Example single_run_snapshot :
  stations single_run.1 = [("a", -3)]
  ∧ totals single_run.1 = mkCounts 3 0
  ∧ hourly single_run.1 = {["2024-11-03 07" := mkCounts 3 0]}.
Proof. vm_compute. done. Qed.

(** C3, as it is written, fails on a station information that lists a
    station twice: the station is published once, with net -3, and counted
    twice in the totals. *)
Lemma totals_counted_twice :
  stations duplicate_run.1 = [("a", -3)]
  ∧ totals duplicate_run.1 = mkCounts 6 0
  ∧ published_pickups (stations duplicate_run.1) = 3
  ∧ pickups (totals duplicate_run.1)
      ≠ published_pickups (stations duplicate_run.1).
Proof.
  assert (Hst : stations duplicate_run.1 = [("a", -3)])
    by (vm_compute; reflexivity).
  assert (Htot : totals duplicate_run.1 = mkCounts 6 0)
    by (vm_compute; reflexivity).
  rewrite Hst, Htot. repeat split. simpl. discriminate.
Qed.

(** The scenario of the specification: after the first run the history has
    two series of one sample, no station is published and the totals are
    zero. *)
Example first_run_scenario :
  first_run.2 = {["a" := [mkSample 1730617500000 3];
                  "b" := [mkSample 1730617500000 5]]}
  ∧ stations first_run.1 = []
  ∧ totals first_run.1 = mkCounts 0 0
  ∧ hourly first_run.1 = ∅.
Proof. vm_compute. done. Qed.


(** * Further properties of the code *)

(** ** The map of the latest counts (lines 81-87) *)

Lemma latest_loop_lookup (stationsStatus : list StationStatus)
    (latest : gmap string Z) (id : string) :
  foldl latest_step latest stationsStatus !! id
    = match last (status_numbers stationsStatus id) with
      | Some n => Some n
      | None => latest !! id
      end.
Proof.
  revert latest. induction stationsStatus as [|s rest IH]; intros latest; [done|].
  cbn [foldl]. rewrite IH. unfold status_numbers, latest_step. cbn [omap list_omap].
  fold (status_numbers rest id).
  destruct (decide (station_id s = id)) as [Hid|Hid].
  - destruct (as_number (num_bikes_available s)) as [n|]; [|done].
    rewrite last_cons, Hid, lookup_insert_eq.
    by destruct (last (status_numbers rest id)).
  - destruct (last (status_numbers rest id)); [done|].
    destruct (as_number (num_bikes_available s)); [|done].
    by apply lookup_insert_ne.
Qed.

(** X1. The count kept for a station is the last number that the status feed
    gives for it: an entry whose count is not a number does not erase a
    number given before, and a station without any number has no count. *)
Theorem build_latest_last_number (stationsStatus : list StationStatus)
    (id : string) :
  build_latest stationsStatus !! id = last (status_numbers stationsStatus id).
Proof.
  unfold build_latest. rewrite latest_loop_lookup, lookup_empty.
  by destruct (last _).
Qed.

Example build_latest_example :
  build_latest [mkStatus "a" (JNumber 4); mkStatus "b" JNull;
                mkStatus "a" (JString "7"); mkStatus "a" (JNumber 5);
                mkStatus "a" JUndefined] !! "a" = Some 5.
Proof. vm_compute. reflexivity. Qed.

(** ** The ingestion loop (lines 89-100) *)

Section ingest_loop_facts.
Implicit Types (history : History) (latest : gmap string Z) (id : string).

(** After [append] the station has an entry. *)
Lemma append_lookup_series history id bikes now :
  append history id bikes now !! id
    = Some (series (append history id bikes now) id).
Proof.
  destruct (stale_cases (series history id) now) as [Hst|Hst].
  - rewrite (append_stale _ _ _ _ Hst). unfold series at 2.
    by rewrite !lookup_insert_eq.
  - rewrite (append_fresh _ _ _ _ Hst). unfold series in *.
    destruct (history !! id) as [arr|]; [done|]. destruct Hst. by left.
Qed.

(** What [append] does to a station depends on its series only. *)
Lemma append_series_congr history1 history2 id bikes now :
  series history1 id = series history2 id →
  series (append history1 id bikes now) id
    = series (append history2 id bikes now) id.
Proof.
  intros Heq. destruct (stale_cases (series history1 id) now) as [Hst|Hst].
  - rewrite !append_stale_series; [by rewrite Heq|by rewrite <- Heq|done].
  - rewrite !append_fresh; [done|by rewrite <- Heq|done].
Qed.

(** A second [append] at the same [now] changes nothing. *)
Lemma append_twice history id bikes bikes2 now :
  append (append history id bikes now) id bikes2 now
    = append history id bikes now.
Proof.
  destruct (stale_cases (series history id) now) as [Hst|Hst].
  - apply append_fresh. rewrite (append_stale_series _ _ _ _ Hst).
    intros [Hnil|(l & Hl & Hlt)].
    + by apply app_nil in Hnil as [_ ?].
    + rewrite last_snoc in Hl. injection Hl as <-. simpl in Hlt. lia.
  - rewrite (append_fresh _ _ bikes now Hst). by apply append_fresh.
Qed.

Lemma ingest_step_other latest now history id id' :
  id' ≠ id → ingest_step latest now history id !! id' = history !! id'.
Proof.
  intros Hne. unfold ingest_step.
  destruct (latest !! id); [by apply append_other|done].
Qed.

Lemma ingest_loop_series latest now (ids : list string) history id :
  series (foldl (ingest_step latest now) history ids) id
    = if decide (id ∈ ids) then series (ingest_step latest now history id) id
      else series history id.
Proof.
  revert history. induction ids as [|id' ids IH]; intros history.
  - cbn [foldl]. destruct (decide (id ∈ [])) as [Hin|_]; [|done].
    by apply elem_of_nil in Hin.
  - cbn [foldl]. rewrite IH. destruct (decide (id' = id)) as [->|Hne].
    + destruct (decide (id ∈ id :: ids)) as [_|Hnin]; [|destruct Hnin; by left].
      destruct (decide (id ∈ ids)); [|done].
      unfold ingest_step. destruct (latest !! id); [|done].
      by rewrite append_twice.
    + assert (Hsame :
        series (ingest_step latest now history id') id = series history id).
      { unfold series. by rewrite ingest_step_other. }
      assert (Hstep :
        series (ingest_step latest now
                  (ingest_step latest now history id') id) id
        = series (ingest_step latest now history id) id).
      { unfold ingest_step at 1 3.
        destruct (latest !! id); [by apply append_series_congr|done]. }
      rewrite Hstep, Hsame.
      destruct (decide (id ∈ ids)) as [Hin|Hnin];
        destruct (decide (id ∈ id' :: ids)) as [Hin'|Hnin']; try done.
      * destruct Hnin'. by right.
      * apply elem_of_cons in Hin' as [?|?]; congruence.
Qed.
End ingest_loop_facts.

Lemma ingest_series (stationsInfo : list string) (latest : gmap string Z)
    (now : Z) (history : History) (id : string) :
  series (ingest stationsInfo latest now history) id
    = match latest !! id with
      | Some bikes =>
          if decide (id ∈ stationsInfo)
          then series (append history id bikes now) id
          else series history id
      | None => series history id
      end.
Proof.
  unfold ingest. rewrite ingest_loop_series. unfold ingest_step.
  destruct (latest !! id); [done|]. by destruct (decide _).
Qed.

Lemma ingest_unlisted (stationsInfo : list string) (latest : gmap string Z)
    (now : Z) (history : History) (id : string) :
  id ∉ stationsInfo →
  ingest stationsInfo latest now history !! id = history !! id.
Proof.
  intros Hnin. unfold ingest. revert history.
  induction stationsInfo as [|id' rest IH]; intros history; [done|].
  cbn [foldl]. rewrite IH.
  - apply ingest_step_other. intros ->. apply Hnin. by left.
  - intros Hin. apply Hnin. by right.
Qed.

Lemma ingest_listed (stationsInfo : list string) (latest : gmap string Z)
    (now : Z) (history : History) (id : string) (bikes0 : Z) :
  id ∈ stationsInfo → latest !! id = Some bikes0 →
  ingest stationsInfo latest now history !! id
    = Some (series (append history id bikes0 now) id).
Proof.
  intros Hin Hlatest.
  assert (Hsome : is_Some (ingest stationsInfo latest now history !! id)).
  { unfold ingest. revert history.
    induction stationsInfo as [|id' rest IH]; intros history.
    - by apply elem_of_nil in Hin.
    - cbn [foldl]. destruct (decide (id ∈ rest)) as [Hrest|Hrest].
      + by apply IH.
      + fold (ingest rest latest now (ingest_step latest now history id')).
        rewrite (ingest_unlisted _ _ _ _ _ Hrest).
        apply elem_of_cons in Hin as [->|?]; [|done].
        unfold ingest_step. rewrite Hlatest, append_lookup_series. eauto. }
  destruct Hsome as [arr Harr]. rewrite Harr. f_equal.
  pose proof (ingest_series stationsInfo latest now history id) as Hser.
  rewrite Hlatest, decide_True in Hser by done.
  rewrite <- Hser. unfold series. by rewrite Harr.
Qed.

(** X2. The ingestion treats each station once, however many times the station
    information lists it: a listed station that has a count gets the entry
    that one [append] makes, and every other entry is as it was. *)
Theorem ingest_once (stationsInfo : list string) (latest : gmap string Z)
    (now : Z) (history : History) (id : string) :
  ingest stationsInfo latest now history !! id
    = match latest !! id with
      | Some bikes =>
          if decide (id ∈ stationsInfo)
          then append history id bikes now !! id
          else history !! id
      | None => history !! id
      end.
Proof.
  destruct (latest !! id) as [bikes0|] eqn:Hlatest.
  - destruct (decide (id ∈ stationsInfo)) as [Hin|Hnin].
    + rewrite (ingest_listed _ _ _ _ _ _ Hin Hlatest).
      by rewrite append_lookup_series.
    + by apply ingest_unlisted.
  - by apply ingest_skips.
Qed.

Example ingest_once_example :
  series (ingest ["a"; "b"; "a"] {["a" := 7; "b" := 2]} 300000
                 {["a" := [mkSample 0 10]]}) "a"
    = [mkSample 0 10; mkSample 300000 7].
Proof. vm_compute. reflexivity. Qed.

(** X3. The ingestion only adds at the end: the series of every station keeps
    its samples, in order, and gains at most one. *)
Theorem ingest_append_only (stationsInfo : list string)
    (latest : gmap string Z) (now : Z) (history : History) (id : string) :
  series history id `prefix_of` series (ingest stationsInfo latest now history) id
  ∧ (length (series (ingest stationsInfo latest now history) id)
     ≤ length (series history id) + 1)%nat.
Proof.
  rewrite ingest_series.
  assert (Happ : ∀ bikes,
    series history id `prefix_of` series (append history id bikes now) id
    ∧ (length (series (append history id bikes now) id)
       ≤ length (series history id) + 1)%nat).
  { intros bikes. destruct (stale_cases (series history id) now) as [Hst|Hst].
    - rewrite (append_stale_series _ _ _ _ Hst). split.
      + by apply prefix_app_r.
      + rewrite length_app. simpl. lia.
    - rewrite (append_fresh _ _ _ _ Hst). split; [done|lia]. }
  destruct (latest !! id) as [bikes|]; [|split; [done|lia]].
  destruct (decide (id ∈ stationsInfo)); [apply Happ|split; [done|lia]].
Qed.


(** ** More on [sumNet] *)

Section sumNet_more.
Implicit Types (deltas pending : list DeltaEvent).

Lemma sumNet_ascending_filter deltas fromMs toMs :
  ascending deltas →
  sumNet deltas fromMs toMs = sum_delta (filter (in_window fromMs toMs) deltas).
Proof.
  intros Hasc. unfold sumNet. rewrite sumNet_scan_counted.
  rewrite (sumNet_counted_descending _ _ _ (ascending_reverse _ Hasc)).
  by rewrite filter_reverse, sum_delta_reverse, Z.add_0_l.
Qed.

Lemma sumNet_scan_empty_window pending fromMs toMs net :
  toMs < fromMs → sumNet_scan pending fromMs toMs net = net.
Proof.
  intros Hlt. induction pending as [|e older IH]; [done|]. simpl.
  case_bool_decide; [done|]. case_bool_decide; [lia|done].
Qed.

(** The scan stops at the first event older than [fromMs]: what is behind
    it is not read. *)
Lemma sumNet_scan_stops newer e older fromMs toMs net :
  Forall (λ x, fromMs ≤ e_t x) newer → e_t e < fromMs →
  sumNet_scan (newer ++ e :: older) fromMs toMs net
    = sumNet_scan newer fromMs toMs net.
Proof.
  intros Hnew Hold. revert net.
  induction Hnew as [|x newer Hx _ IH]; intros net; simpl.
  - by rewrite bool_decide_eq_true_2.
  - rewrite bool_decide_eq_false_2 by lia. apply IH.
Qed.

Lemma window_split_sum deltas fromMs midMs toMs :
  fromMs ≤ midMs + 1 → midMs ≤ toMs →
  sum_delta (filter (in_window fromMs toMs) deltas)
    = sum_delta (filter (in_window fromMs midMs) deltas)
      + sum_delta (filter (in_window (midMs + 1) toMs) deltas).
Proof.
  intros H1 H2. induction deltas as [|e l IH]; [done|].
  rewrite !filter_cons.
  repeat case_decide; unfold in_window, sum_delta in *; simpl; lia.
Qed.
End sumNet_more.

(** X4. A window that ends before it starts has net 0, whatever the order of
    the events. *)
Theorem sumNet_empty_window (deltas : list DeltaEvent) (fromMs toMs : Z) :
  toMs < fromMs → sumNet deltas fromMs toMs = 0.
Proof. intros Hlt. by apply sumNet_scan_empty_window. Qed.

Lemma sumNet_empty_window_witness :
  sumNet [mkDelta 600000 2; mkDelta 300000 (-3)] 500000 400000 = 0.
Proof.
  apply (sumNet_empty_window [mkDelta 600000 2; mkDelta 300000 (-3)]
           500000 400000).
  lia.
Defined.

(** X5. On ascending events, the net over a window is the sum of the nets over
    its two parts, up to [midMs] and from [midMs + 1]. *)
Theorem sumNet_split (deltas : list DeltaEvent) (fromMs midMs toMs : Z) :
  ascending deltas → fromMs ≤ midMs + 1 → midMs ≤ toMs →
  sumNet deltas fromMs toMs
    = sumNet deltas fromMs midMs + sumNet deltas (midMs + 1) toMs.
Proof.
  intros Hasc H1 H2. rewrite !sumNet_ascending_filter by done.
  by apply window_split_sum.
Qed.

Lemma sumNet_split_witness :
  sumNet [mkDelta 300000 (-3); mkDelta 600000 2] 0 600000
    = sumNet [mkDelta 300000 (-3); mkDelta 600000 2] 0 300000
      + sumNet [mkDelta 300000 (-3); mkDelta 600000 2] 300001 600000.
Proof.
  apply (sumNet_split [mkDelta 300000 (-3); mkDelta 600000 2] 0 300000 600000).
  - apply ascendingb_ascending. reflexivity.
  - lia.
  - lia.
Defined.

(** X6. The early exit on events that are not ascending: once the scan meets
    an event older than [fromMs], the events before it in the sequence are
    not counted, in the window or not. *)
Theorem sumNet_early_exit (older newer : list DeltaEvent) (e : DeltaEvent)
    (fromMs toMs : Z) :
  e_t e < fromMs → Forall (λ x, fromMs ≤ e_t x) newer →
  sumNet (older ++ e :: newer) fromMs toMs = sumNet newer fromMs toMs.
Proof.
  intros Hold Hnew. unfold sumNet.
  rewrite reverse_app, reverse_cons, <- app_assoc. simpl.
  apply sumNet_scan_stops; [|done].
  apply Forall_forall. intros x Hx. rewrite elem_of_reverse in Hx.
  rewrite Forall_forall in Hnew. by apply Hnew.
Qed.

(** The event of 400000 is in the window and is not counted. *)
Lemma sumNet_early_exit_witness :
  sumNet ([mkDelta 400000 5] ++ mkDelta 100000 1 :: [mkDelta 600000 2])
         300000 700000 = 2.
Proof.
  rewrite (sumNet_early_exit [mkDelta 400000 5] [mkDelta 600000 2]
             (mkDelta 100000 1) 300000 700000).
  - reflexivity.
  - simpl. lia.
  - repeat constructor. simpl. lia.
Defined.

(** ** More on [toDeltas] *)

Section toDeltas_more.
Implicit Types (samples rest : list Sample).

(** The deltas of a series add up to the change of the count from its
    first sample to its last. *)
Lemma derive_spec_telescope prev rest :
  sum_delta (derive_spec (prev :: rest))
    = bikes (default prev (last rest)) - bikes prev.
Proof.
  revert prev. induction rest as [|curr rest IH]; intros prev.
  - unfold sum_delta. simpl. lia.
  - rewrite derive_spec_cons2, sum_delta_app, IH, last_cons.
    destruct (last rest) as [z|]; case_bool_decide;
      unfold sum_delta; simpl; lia.
Qed.

(** The events of the series after [prev] carry the timestamps of [rest]. *)
Lemma derive_spec_times (P : Z → Prop) prev rest :
  Forall (λ s, P (t s)) rest →
  Forall (λ e, P (e_t e)) (derive_spec (prev :: rest)).
Proof.
  intros Hall. revert prev.
  induction Hall as [|curr rest Hc _ IH]; intros prev; [constructor|].
  rewrite derive_spec_cons2. apply Forall_app. split; [|apply IH].
  case_bool_decide; by repeat constructor.
Qed.

(** The events of a series cut in two, the sample [x] being the last of
    the first part and the first of the second. *)
Lemma derive_spec_app samples x rest :
  derive_spec (samples ++ x :: rest)
    = derive_spec (samples ++ [x]) ++ derive_spec (x :: rest).
Proof.
  induction samples as [|a [|b samples] IH].
  - done.
  - simpl app. rewrite !derive_spec_cons2.
    by rewrite <- app_assoc.
  - simpl app in *. rewrite !(derive_spec_cons2 a b), IH.
    by rewrite app_assoc.
Qed.
End toDeltas_more.

(** X7. The deltas of a series add up to the count of its last sample minus
    the count of its first. *)
Theorem toDeltas_telescope (samples : list Sample) (a z : Sample) :
  head samples = Some a → last samples = Some z →
  sum_delta (toDeltas samples) = bikes z - bikes a.
Proof.
  intros Hhead Hlast. rewrite toDeltas_derive_spec.
  destruct samples as [|prev rest]; [done|]. injection Hhead as ->.
  rewrite derive_spec_telescope. rewrite last_cons in Hlast.
  destruct (last rest); by injection Hlast as ->.
Qed.

Lemma toDeltas_telescope_witness :
  sum_delta (toDeltas [mkSample 0 10; mkSample 300000 7; mkSample 600000 9])
    = 9 - 10.
Proof.
  apply (toDeltas_telescope
           [mkSample 0 10; mkSample 300000 7; mkSample 600000 9]
           (mkSample 0 10) (mkSample 600000 9)); reflexivity.
Defined.

(** X8. A sample pushed onto a series adds one event at the end, the change of
    the count since the last sample, and none when the count is the same;
    pushed onto [history] by [append], it gives the event [{t: now, delta:
    bikes - last.bikes}]. *)
Theorem append_event (history : History) (id : string) (bikes0 now : Z)
    (l : Sample) :
  last (series history id) = Some l → t l < now - 60000 →
  toDeltas (series (append history id bikes0 now) id)
    = toDeltas (series history id)
      ++ (if bool_decide (bikes0 ≠ bikes l)
          then [mkDelta now (bikes0 - bikes l)] else []).
Proof.
  intros Hlast Hold.
  rewrite append_stale_series by (right; eauto).
  apply last_Some in Hlast as [samples ->].
  rewrite !toDeltas_derive_spec, <- app_assoc. simpl app.
  rewrite derive_spec_app. f_equal.
  rewrite derive_spec_cons2. simpl. rewrite app_nil_r.
  case_bool_decide; case_bool_decide; try done; lia.
Qed.

Lemma append_event_witness :
  toDeltas (series (append {["a" := [mkSample 0 10]]} "a" 7 300000) "a")
    = [mkDelta 300000 (-3)].
Proof.
  rewrite (append_event {["a" := [mkSample 0 10]]} "a" 7 300000 (mkSample 0 10)).
  - reflexivity.
  - reflexivity.
  - simpl. lia.
Defined.

Lemma sumNet_toDeltas_partition (old inside : list Sample) (z : Sample)
    (fromMs toMs : Z) :
  Forall (λ s, t s < fromMs) old →
  Forall (λ s, fromMs ≤ t s ∧ t s ≤ toMs) inside →
  last inside = Some z →
  sumNet (toDeltas (old ++ inside)) fromMs toMs
    = bikes z - bikes (default (default z (head inside)) (last old)).
Proof.
  intros Hold Hin Hz. rewrite toDeltas_derive_spec.
  assert (Hscan : ∀ before within : list DeltaEvent,
    Forall (λ e, e_t e < fromMs) before →
    Forall (λ e, fromMs ≤ e_t e ∧ e_t e ≤ toMs) within →
    sumNet (before ++ within) fromMs toMs = sum_delta within).
  { intros before within Hb Hw. unfold sumNet.
    rewrite sumNet_scan_counted, reverse_app, Z.add_0_l.
    rewrite <- (sum_delta_reverse within).
    assert (Hw' : Forall (λ e, fromMs ≤ e_t e ∧ e_t e ≤ toMs) (reverse within)).
    { apply Forall_forall. intros x Hx. rewrite elem_of_reverse in Hx.
      rewrite Forall_forall in Hw. by apply Hw. }
    assert (Hb' : Forall (λ e, e_t e < fromMs) (reverse before)).
    { apply Forall_forall. intros x Hx. rewrite elem_of_reverse in Hx.
      rewrite Forall_forall in Hb. by apply Hb. }
    f_equal. induction Hw' as [|x w [Hx1 Hx2] _ IH]; simpl.
    - destruct Hb' as [|y b Hy _]; simpl; [done|].
      by rewrite bool_decide_eq_true_2.
    - rewrite bool_decide_eq_false_2 by lia.
      rewrite bool_decide_eq_true_2 by done. by rewrite IH. }
  destruct (last old) as [a|] eqn:Ha.
  - apply last_Some in Ha as [old' ->]. rewrite <- app_assoc. simpl app.
    destruct inside as [|x inside']; [done|].
    rewrite derive_spec_app, Hscan.
    + rewrite derive_spec_telescope. cbn [default from_option Datatypes.id].
      by rewrite Hz.
    + destruct old' as [|o old'']; [constructor|]. simpl app.
      apply (derive_spec_times (λ x, x < fromMs)).
      by apply Forall_cons in Hold as [_ ?].
    + by apply (derive_spec_times (λ x, fromMs ≤ x ∧ x ≤ toMs)).
  - apply last_None in Ha as ->. simpl app.
    destruct inside as [|x inside']; [done|].
    etrans; [apply (Hscan [] (derive_spec (x :: inside')))|].
    + constructor.
    + apply (derive_spec_times (λ x, fromMs ≤ x ∧ x ≤ toMs)).
      by apply Forall_cons in Hin as [_ ?].
    + rewrite derive_spec_telescope. cbn [head default from_option Datatypes.id].
      rewrite last_cons in Hz. destruct (last inside'); by injection Hz as ->.
Qed.

(** X9. On a series whose samples before the window come first and whose
    other samples are in the window, the net over the window is the count
    of the last sample minus the count of the last sample before the
    window, or of the first sample when none is before. *)
Theorem sumNet_count_change (old inside : list Sample) (z : Sample)
    (fromMs toMs : Z) :
  Forall (λ s, t s < fromMs) old →
  Forall (λ s, fromMs ≤ t s ∧ t s ≤ toMs) inside →
  last inside = Some z →
  sumNet (toDeltas (old ++ inside)) fromMs toMs
    = bikes z - bikes (default (default z (head inside)) (last old)).
Proof. apply sumNet_toDeltas_partition. Qed.

Lemma sumNet_count_change_witness :
  sumNet (toDeltas ([mkSample 0 10; mkSample 300000 7]
                    ++ [mkSample 600000 9; mkSample 900000 4]))
         500000 900000 = 4 - 7.
Proof.
  apply (sumNet_count_change [mkSample 0 10; mkSample 300000 7]
           [mkSample 600000 9; mkSample 900000 4] (mkSample 900000 4)
           500000 900000).
  - repeat constructor; simpl; lia.
  - repeat constructor; simpl; lia.
  - reflexivity.
Defined.

(** X10. The net of a station over the day, the hour or the last 15 minutes is
    its count at the last sample minus its count at the last sample before
    the start of that window (midnight, the start of the hour, or
    [now - 900000]), or at its first sample when it has none before. *)
Theorem station_net_count_change (midnight hourStart : Z → Z) (w : Window)
    (now : Z) (old inside : list Sample) (z : Sample) :
  Forall (λ s, t s < window_from midnight hourStart w now) old →
  Forall (λ s, window_from midnight hourStart w now ≤ t s ∧ t s ≤ now) inside →
  last inside = Some z →
  station_net midnight hourStart w now (old ++ inside)
    = bikes z - bikes (default (default z (head inside)) (last old)).
Proof.
  intros Hold Hin Hz.
  rewrite <- (sumNet_toDeltas_partition old inside z
                (window_from midnight hourStart w now) now Hold Hin Hz).
  unfold station_net. by destruct w.
Qed.

(** At 07:05 UTC, a sample of the day before and two of the hour. *)
Lemma station_net_count_change_witness :
  station_net midnight_utc hourStart_utc Hour 1730617500000
    ([mkSample 1730530800000 10]
     ++ [mkSample 1730617200000 7; mkSample 1730617500000 12])
    = 12 - 10.
Proof.
  apply (station_net_count_change midnight_utc hourStart_utc Hour 1730617500000
           [mkSample 1730530800000 10]
           [mkSample 1730617200000 7; mkSample 1730617500000 12]
           (mkSample 1730617500000 12)).
  - repeat constructor.
  - repeat constructor; vm_compute; discriminate.
  - reflexivity.
Defined.

(** ** More on pruning *)

Section prune_more.
Implicit Types (history : History).

Lemma prune_lookup history now retentionHours id :
  prune history now retentionHours !! id
    = retained (now - retentionHours * 60 * 60 * 1000) (history !! id).
Proof.
  unfold prune. rewrite prune_loop_lookup by apply NoDup_fst_map_to_list.
  case_decide as Hin; [done|].
  destruct (history !! id) as [samples|] eqn:Hs; [|done].
  destruct Hin. apply list_elem_of_fmap. exists (id, samples).
  split; [done|]. by apply elem_of_map_to_list.
Qed.

Lemma filter_kept_twice cutoff1 cutoff2 (samples : list Sample) :
  cutoff1 ≤ cutoff2 →
  filter (λ s, ¬ t s < cutoff2) (filter (λ s, ¬ t s < cutoff1) samples)
    = filter (λ s, ¬ t s < cutoff2) samples.
Proof.
  intros Hle. induction samples as [|x l IH]; [done|].
  rewrite !filter_cons. destruct (decide (¬ t x < cutoff1)) as [H1|H1].
  - rewrite filter_cons. by rewrite IH.
  - rewrite IH. rewrite decide_False by lia. done.
Qed.

Lemma retained_twice cutoff1 cutoff2 entry :
  cutoff1 ≤ cutoff2 →
  retained cutoff2 (retained cutoff1 entry) = retained cutoff2 entry.
Proof.
  intros Hle. destruct entry as [samples|]; [|done].
  unfold retained at 2. cbn zeta.
  destruct (decide (filter (λ s, ¬ t s < cutoff1) samples = [])) as [Hnil|Hne].
  - unfold retained. cbn zeta.
    rewrite <- (filter_kept_twice cutoff1 cutoff2 samples Hle), Hnil.
    by rewrite decide_True.
  - unfold retained. cbn zeta. by rewrite filter_kept_twice.
Qed.
End prune_more.

(** X11. Pruning with a later horizon after pruning with an earlier one is
    pruning with the later one: what a run prunes, the next run would have
    pruned too, and pruning twice at the same instant is pruning once. *)
Theorem prune_prune (history : History) (now1 hours1 now2 hours2 : Z) :
  now1 - hours1 * 3600000 ≤ now2 - hours2 * 3600000 →
  prune (prune history now1 hours1) now2 hours2 = prune history now2 hours2.
Proof.
  intros Hle. apply map_eq. intros id. rewrite !prune_lookup.
  apply retained_twice. lia.
Qed.

Lemma prune_prune_witness :
  saveHistory (saveHistory {["a" := [mkSample 0 10; mkSample 200000000 7]]}
                           100000000) 200000000
    = saveHistory {["a" := [mkSample 0 10; mkSample 200000000 7]]} 200000000.
Proof.
  apply (prune_prune {["a" := [mkSample 0 10; mkSample 200000000 7]]}
           100000000 MEMORY_HRS 200000000 MEMORY_HRS).
  vm_compute. discriminate.
Defined.

(** ** Whole runs *)

Section run_more.
Variables (midnight hourStart : Z → Z) (hourKey : Z → string).
Implicit Types (history : History) (ids : list string).

(** After [append] the series ends with a sample that is not older than
    one minute. *)
Lemma append_last_recent history id bikes0 now :
  ∃ z, last (series (append history id bikes0 now) id) = Some z
       ∧ now - 60000 ≤ t z.
Proof.
  destruct (stale_cases (series history id) now) as [Hst|Hst].
  - rewrite (append_stale_series _ _ _ _ Hst). exists (mkSample now bikes0).
    split; [apply last_snoc|simpl; lia].
  - rewrite (append_fresh _ _ _ _ Hst).
    destruct (last (series history id)) as [z|] eqn:Hz.
    + exists z. split; [done|].
      destruct (decide (t z < now - 60000)) as [Hlt|Hge]; [|lia].
      destruct Hst. right. eauto.
    + destruct Hst. left. by apply last_None.
Qed.

(** A sample that is kept and comes last stays last. *)
Lemma retained_last cutoff (samples : list Sample) z :
  last samples = Some z → cutoff ≤ t z →
  ∃ kept, retained cutoff (Some samples) = Some kept ∧ last kept = Some z.
Proof.
  intros Hz Hle. apply last_Some in Hz as [front ->].
  exists (filter (λ s, ¬ t s < cutoff) front ++ [z]).
  assert (Hkept : filter (λ s, ¬ t s < cutoff) (front ++ [z])
                  = filter (λ s, ¬ t s < cutoff) front ++ [z]).
  { rewrite filter_app. f_equal. rewrite filter_cons, decide_True by lia. done. }
  split; [|apply last_snoc].
  unfold retained. cbn zeta. rewrite Hkept.
  rewrite decide_False; [done|]. intros Hnil. by apply app_nil in Hnil as [_ ?].
Qed.

(** X12. Every listed station that has a count comes out of a run with a saved
    series, whose last sample is the last one after the ingestion and is
    not older than one minute: the pruning never drops the current
    sample. *)
Theorem run_keeps_current w (history0 : History) (stationsInfo : list string)
    (stationsStatus : list StationStatus) (now : Z) (id : string) (bikes0 : Z) :
  id ∈ stationsInfo → build_latest stationsStatus !! id = Some bikes0 →
  ∃ samples z,
    (run midnight hourStart hourKey w history0 stationsInfo stationsStatus
         now).2 !! id = Some samples
    ∧ last samples = Some z
    ∧ last (series (ingest stationsInfo (build_latest stationsStatus) now
                           history0) id) = Some z
    ∧ now - 60000 ≤ t z.
Proof.
  intros Hin Hlatest. unfold run. cbn [snd]. unfold saveHistory.
  rewrite prune_lookup. unfold series.
  rewrite (ingest_listed _ _ _ _ _ _ Hin Hlatest). cbn [default from_option].
  destruct (append_last_recent history0 id bikes0 now) as (z & Hz & Hrecent).
  destruct (retained_last (now - MEMORY_HRS * 60 * 60 * 1000) _ z Hz)
    as (kept & Hkept & Hlast).
  { unfold MEMORY_HRS. lia. }
  exists kept, z. by rewrite Hkept.
Qed.


(** A history whose series all have fewer than two samples gives nothing
    to publish. *)
Lemma compute_nets_short w now history ids st :
  (∀ id, (length (series history id) < 2)%nat) →
  foldl (net_step midnight hourStart w now history) st ids = st.
Proof.
  intros Hshort. induction ids as [|id ids IH]; [done|].
  cbn [foldl]. rewrite net_step_published. unfold published_net.
  rewrite decide_False; [done|]. intros [Hlen _]. specialize (Hshort id). lia.
Qed.

Lemma compute_hourly_short history ids (h : gmap string Counts) :
  (∀ id, (length (series history id) < 2)%nat) →
  foldl (hourly_step hourKey history) h ids = h.
Proof.
  intros Hshort. induction ids as [|id ids IH]; [done|].
  cbn [foldl]. unfold hourly_step at 2.
  destruct (history !! id) as [samples|] eqn:Hs; [|done].
  specialize (Hshort id). unfold series in Hshort. rewrite Hs in Hshort.
  cbn [default from_option Datatypes.id] in Hshort.
  by rewrite bool_decide_eq_true_2.
Qed.

(** X13. The first run, on an empty history: nothing is published, the totals
    are zero and there is no hourly bucket, whatever the feed; the saved
    history has one sample, of this run, for each listed station that has
    a count, and nothing else. *)
Theorem first_run_empty w (stationsInfo : list string)
    (stationsStatus : list StationStatus) (now : Z) :
  stations (run midnight hourStart hourKey w ∅ stationsInfo stationsStatus
                now).1 = []
  ∧ totals (run midnight hourStart hourKey w ∅ stationsInfo stationsStatus
                now).1 = mkCounts 0 0
  ∧ hourly (run midnight hourStart hourKey w ∅ stationsInfo stationsStatus
                now).1 = ∅
  ∧ ∀ id,
      (run midnight hourStart hourKey w ∅ stationsInfo stationsStatus
           now).2 !! id
        = match build_latest stationsStatus !! id with
          | Some bikes0 =>
              if decide (id ∈ stationsInfo)
              then Some [mkSample now bikes0] else None
          | None => None
          end.
Proof.
  set (latest := build_latest stationsStatus).
  assert (Hpush : ∀ id bikes0,
    series (append ∅ id bikes0 now) id = [mkSample now bikes0]).
  { intros id bikes0. rewrite append_stale_series; [done|]. by left. }
  assert (Hshort : ∀ id,
    (length (series (ingest stationsInfo latest now ∅) id) < 2)%nat).
  { intros id. rewrite ingest_series.
    assert (Hnone : series (∅ : History) id = []).
    { unfold series. by rewrite lookup_empty. }
    destruct (latest !! id) as [bikes0|]; [|rewrite Hnone; simpl; lia].
    destruct (decide (id ∈ stationsInfo)); [|rewrite Hnone; simpl; lia].
    rewrite Hpush. simpl. lia. }
  unfold run, build_snapshot, compute_nets, compute_hourly.
  cbn [fst snd stations totals hourly]. fold latest.
  rewrite (compute_nets_short _ _ _ _ _ Hshort).
  rewrite (compute_hourly_short _ _ _ Hshort).
  cbn [byStation totPickups totReturns].
  split; [apply map_to_list_empty|]. split; [done|]. split; [done|].
  intros id. unfold saveHistory. rewrite prune_lookup.
  destruct (latest !! id) as [bikes0|] eqn:Hlatest.
  - destruct (decide (id ∈ stationsInfo)) as [Hin|Hnin].
    + rewrite (ingest_listed _ _ _ _ _ _ Hin Hlatest), Hpush.
      unfold retained, MEMORY_HRS. cbn zeta.
      rewrite filter_cons.
      destruct (decide (¬ t (mkSample now bikes0) < now - 36 * 60 * 60 * 1000))
        as [_|Hold]; [done|].
      destruct Hold. cbn [t]. lia.
    + by rewrite (ingest_unlisted _ _ _ _ _ Hnin).
  - by rewrite (ingest_skips _ _ _ _ _ Hlatest).
Qed.

(** *** Totals *)

Lemma published_pickups_nonneg (l : list (string * Z)) : 0 ≤ published_pickups l.
Proof.
  induction l as [|[id net] l IH]; [done|].
  rewrite published_pickups_cons. case_bool_decide; lia.
Qed.

Lemma published_returns_positive id net (l : list (string * Z)) :
  published_returns ((id, net) :: l)
    = (if bool_decide (0 < net) then net else 0) + published_returns l.
Proof.
  unfold published_returns. rewrite filter_cons. simpl.
  case_decide; case_bool_decide; simpl; solve [done | lia].
Qed.

Lemma published_returns_nonneg (l : list (string * Z)) : 0 ≤ published_returns l.
Proof.
  induction l as [|[id net] l IH]; [done|].
  rewrite published_returns_positive. case_bool_decide; lia.
Qed.

(** X14. For every run, listing a station twice or not, the totals are the
    sums over the turns of the loop that publish a station: of [-net] for
    the negative nets, of [net] for the positive ones; so they are never
    negative. *)
Theorem totals_by_turn w (history0 : History) (stationsInfo : list string)
    (stationsStatus : list StationStatus) (now : Z) :
  pickups (totals (run midnight hourStart hourKey w history0 stationsInfo
                       stationsStatus now).1)
    = published_pickups
        (published_turns midnight hourStart w now
           (ingest stationsInfo (build_latest stationsStatus) now history0)
           stationsInfo)
  ∧ returns (totals (run midnight hourStart hourKey w history0 stationsInfo
                         stationsStatus now).1)
    = published_returns
        (published_turns midnight hourStart w now
           (ingest stationsInfo (build_latest stationsStatus) now history0)
           stationsInfo)
  ∧ 0 ≤ pickups (totals (run midnight hourStart hourKey w history0 stationsInfo
                             stationsStatus now).1)
  ∧ 0 ≤ returns (totals (run midnight hourStart hourKey w history0 stationsInfo
                             stationsStatus now).1).
Proof.
  unfold run, build_snapshot, compute_nets.
  cbn [fst totals pickups returns].
  set (history := ingest stationsInfo (build_latest stationsStatus) now history0).
  destruct (compute_nets_totals midnight hourStart w now history stationsInfo
              (mkNetState ∅ 0 0)) as [-> ->].
  cbn [totPickups totReturns]. rewrite !Z.add_0_l.
  split; [done|]. split; [done|].
  split; [apply published_pickups_nonneg|apply published_returns_nonneg].
Qed.

(** X15. A station of the history that the station information does not list
    is not published, and its saved series is its old one, pruned: the run
    adds nothing to it. *)
Theorem run_unlisted w (history0 : History) (stationsInfo : list string)
    (stationsStatus : list StationStatus) (now : Z) (id : string) :
  id ∉ stationsInfo →
  (∀ net, (id, net) ∉ stations
            (run midnight hourStart hourKey w history0 stationsInfo
                 stationsStatus now).1)
  ∧ (run midnight hourStart hourKey w history0 stationsInfo stationsStatus
         now).2 !! id
    = retained (now - 36 * 3600000) (history0 !! id).
Proof.
  intros Hnin. unfold run, build_snapshot, compute_nets.
  cbn [fst snd stations]. split.
  - intros net. rewrite elem_of_map_to_list, compute_nets_lookup.
    rewrite decide_False by done. cbn [byStation]. by rewrite lookup_empty.
  - unfold saveHistory. rewrite prune_lookup, (ingest_unlisted _ _ _ _ _ Hnin).
    unfold MEMORY_HRS. f_equal; lia.
Qed.
End run_more.

Lemma run_keeps_current_witness :
  ∃ samples z,
    single_run.2 !! "a" = Some samples ∧ last samples = Some z
    ∧ 1730617500000 - 60000 ≤ t z.
Proof.
  destruct (run_keeps_current midnight_utc hourStart_utc hourKey_utc
              publishWindow {["a" := [mkSample 1730617200000 10]]}
              ["a"] [mkStatus "a" (JNumber 7)] 1730617500000 "a" 7)
    as (samples & z & Hs & Hl & _ & Ht).
  - by left.
  - reflexivity.
  - exists samples, z. done.
Defined.

Lemma run_unlisted_witness :
  (∀ net, ("b", net) ∉ stations unlisted_run.1)
  ∧ unlisted_run.2 !! "b"
    = Some [mkSample 1730617000000 4; mkSample 1730617200000 6].
Proof.
  assert (Hb : "b" ∉ ["a"]).
  { intros Hin. apply list_elem_of_In in Hin. destruct Hin as [Heq|[]].
    discriminate Heq. }
  destruct (run_unlisted midnight_utc hourStart_utc hourKey_utc publishWindow
              {["a" := [mkSample 1730617200000 10];
                "b" := [mkSample 1730617000000 4; mkSample 1730617200000 6]]}
              ["a"] [mkStatus "a" (JNumber 7); mkStatus "b" (JNumber 9)]
              1730617500000 "b" Hb) as [Hout Hsaved].
  split; [exact Hout|]. unfold unlisted_run, main. rewrite Hsaved.
  vm_compute. reflexivity.
Defined.

(** ** More on the hourly buckets *)

Section hourly_more.
Variables (hourKey : Z → string).
Implicit Types (history : History) (h : gmap string Counts).

Lemma events_pickups_nonneg (es : list DeltaEvent) : 0 ≤ events_pickups es.
Proof.
  induction es as [|e es IH]; [done|].
  rewrite events_pickups_cons. case_bool_decide; lia.
Qed.

Lemma events_returns_nonneg (es : list DeltaEvent) :
  Forall (λ e, delta e ≠ 0) es → 0 ≤ events_returns es.
Proof.
  induction 1 as [|e es He _ IH]; [done|].
  rewrite events_returns_cons. case_bool_decide; lia.
Qed.

Lemma events_total_positive (es : list DeltaEvent) :
  Forall (λ e, delta e ≠ 0) es → es ≠ [] →
  0 < events_pickups es + events_returns es.
Proof.
  intros Hall Hne. destruct Hall as [|e es He Hes]; [done|].
  rewrite events_pickups_cons, events_returns_cons.
  pose proof (events_pickups_nonneg es).
  pose proof (events_returns_nonneg es Hes).
  case_bool_decide; lia.
Qed.

(** No event has a zero delta. *)
Lemma all_events_nonzero history (ids : list string) :
  Forall (λ e, delta e ≠ 0) (all_events history ids).
Proof.
  unfold all_events. apply Forall_forall. intros e He.
  apply list_elem_of_bind in He as (id & He & _).
  unfold station_events in He. rewrite toDeltas_derive_spec in He.
  unfold derive_spec in He. by apply list_elem_of_filter in He as [? _].
Qed.

(** The sum of a count over the buckets, after one bucket is written. *)
Lemma bucket_sum_insert (g : Counts → Z) h key b :
  bucket_sum g (<[key := b]> h)
    = bucket_sum g h - from_option g 0 (h !! key) + g b.
Proof.
  assert (Hcons : ∀ (kb : string * Counts) l,
    sumZ ((λ kb, g kb.2) <$> kb :: l) = g kb.2 + sumZ ((λ kb, g kb.2) <$> l))
    by done.
  unfold bucket_sum. destruct (h !! key) as [b0|] eqn:Hkey.
  - rewrite <- insert_delete_eq.
    rewrite (sumZ_perm _ _ (fmap_Permutation _ _ _
               (map_to_list_insert (delete key h) key b (lookup_delete_eq h key)))).
    rewrite <- (sumZ_perm _ _ (fmap_Permutation _ _ _
                  (map_to_list_delete h key b0 Hkey))).
    rewrite !Hcons. cbn [snd from_option]. lia.
  - rewrite (sumZ_perm _ _ (fmap_Permutation _ _ _
               (map_to_list_insert h key b Hkey))).
    rewrite Hcons. cbn [snd from_option]. lia.
Qed.

(** One event adds its magnitude to the pickups or to the returns. *)
Lemma hourly_event_sums h e :
  bucket_sum pickups (hourly_event hourKey h e)
    = bucket_sum pickups h + (if bool_decide (delta e < 0) then - delta e else 0)
  ∧ bucket_sum returns (hourly_event hourKey h e)
    = bucket_sum returns h + (if bool_decide (delta e < 0) then 0 else delta e).
Proof.
  unfold hourly_event. destruct (h !! hourKey (e_t e)) as [b|] eqn:Hb.
  - rewrite Hb. cbn [default from_option Datatypes.id].
    case_bool_decide; rewrite !bucket_sum_insert, Hb; simpl; lia.
  - rewrite lookup_insert_eq. cbn [default from_option Datatypes.id].
    case_bool_decide; rewrite !insert_insert_eq, !bucket_sum_insert, Hb;
      simpl; lia.
Qed.

Lemma hourly_events_sums (es : list DeltaEvent) h :
  bucket_sum pickups (foldl (hourly_event hourKey) h es)
    = bucket_sum pickups h + events_pickups es
  ∧ bucket_sum returns (foldl (hourly_event hourKey) h es)
    = bucket_sum returns h + events_returns es.
Proof.
  revert h. induction es as [|e es IH]; intros h.
  - unfold events_pickups, events_returns, sumZ. simpl. lia.
  - cbn [foldl]. destruct (IH (hourly_event hourKey h e)) as [-> ->].
    destruct (hourly_event_sums h e) as [-> ->].
    rewrite events_pickups_cons, events_returns_cons. lia.
Qed.

Lemma compute_hourly_sums history (ids : list string) h :
  bucket_sum pickups (foldl (hourly_step hourKey history) h ids)
    = bucket_sum pickups h + events_pickups (all_events history ids)
  ∧ bucket_sum returns (foldl (hourly_step hourKey history) h ids)
    = bucket_sum returns h + events_returns (all_events history ids).
Proof.
  revert h. induction ids as [|id ids IH]; intros h.
  - unfold all_events, events_pickups, events_returns, sumZ. simpl. lia.
  - cbn [foldl]. destruct (IH (hourly_step hourKey history h id)) as [-> ->].
    unfold all_events. rewrite bind_cons, events_pickups_app, events_returns_app.
    fold (all_events history ids).
    assert (Hstep :
      hourly_step hourKey history h id
        = foldl (hourly_event hourKey) h (station_events history id)).
    { unfold hourly_step, station_events.
      destruct (history !! id) as [samples|]; [|done].
      cbn [default from_option Datatypes.id].
      case_bool_decide as Hlen; [|done]. by rewrite (toDeltas_short _ Hlen). }
    rewrite Hstep.
    destruct (hourly_events_sums (station_events history id) h) as [-> ->]. lia.
Qed.
End hourly_more.

(** X16. A bucket of the hourly mapping holds at least one pickup or return,
    and its two counts are never negative. *)
Theorem hourly_bucket_positive (midnight hourStart : Z → Z)
    (hourKey : Z → string) w (history0 : History) (stationsInfo : list string)
    (stationsStatus : list StationStatus) (now : Z) (key : string) (b : Counts) :
  hourly (run midnight hourStart hourKey w history0 stationsInfo
              stationsStatus now).1 !! key = Some b →
  0 ≤ pickups b ∧ 0 ≤ returns b ∧ 0 < pickups b + returns b.
Proof.
  unfold run, build_snapshot, compute_hourly. cbn [fst hourly].
  rewrite compute_hourly_lookup, lookup_empty.
  set (history := ingest stationsInfo (build_latest stationsStatus) now history0).
  set (es := filter (λ e, hourKey (e_t e) = key) (all_events history stationsInfo)).
  assert (Hnz : Forall (λ e, delta e ≠ 0) es).
  { apply Forall_forall. intros e He.
    apply list_elem_of_filter in He as [_ He].
    pose proof (all_events_nonzero history stationsInfo) as Hall.
    rewrite Forall_forall in Hall. by apply Hall. }
  unfold bucket_add. destruct es as [|e es'] eqn:Hes; [done|].
  intros [= <-]. cbn [default from_option Datatypes.id pickups returns].
  pose proof (events_pickups_nonneg (e :: es')) as Hp.
  pose proof (events_returns_nonneg (e :: es') Hnz) as Hr.
  assert (Hne : e :: es' ≠ []) by done.
  pose proof (events_total_positive (e :: es') Hnz Hne) as Hpos. lia.
Qed.

Lemma hourly_bucket_positive_witness :
  0 ≤ pickups (mkCounts 3 0) ∧ 0 ≤ returns (mkCounts 3 0)
  ∧ 0 < pickups (mkCounts 3 0) + returns (mkCounts 3 0).
Proof.
  apply (hourly_bucket_positive midnight_utc hourStart_utc hourKey_utc
           publishWindow {["a" := [mkSample 1730617200000 10]]} ["a"]
           [mkStatus "a" (JNumber 7)] 1730617500000 "2024-11-03 07").
  vm_compute. reflexivity.
Defined.

(** X17. The hourly buckets lose nothing: their pickups add up to the sum of the
    absolute values of all the negative deltas of the listed stations, and
    their returns to the sum of all the positive deltas. *)
Theorem hourly_conserves (midnight hourStart : Z → Z) (hourKey : Z → string)
    w (history0 : History) (stationsInfo : list string)
    (stationsStatus : list StationStatus) (now : Z) :
  bucket_sum pickups
      (hourly (run midnight hourStart hourKey w history0 stationsInfo
                   stationsStatus now).1)
    = events_pickups
        (all_events (ingest stationsInfo (build_latest stationsStatus) now
                            history0) stationsInfo)
  ∧ bucket_sum returns
      (hourly (run midnight hourStart hourKey w history0 stationsInfo
                   stationsStatus now).1)
    = events_returns
        (all_events (ingest stationsInfo (build_latest stationsStatus) now
                            history0) stationsInfo).
Proof.
  unfold run, build_snapshot, compute_hourly. cbn [fst hourly].
  destruct (compute_hourly_sums hourKey
              (ingest stationsInfo (build_latest stationsStatus) now history0)
              stationsInfo ∅) as [-> ->].
  unfold bucket_sum. rewrite map_to_list_empty. unfold sumZ. simpl. lia.
Qed.

(** ** Stations that are not listed, or listed twice *)


(** C8, as it is written, fails on a station of the history that is not
    listed: in [unlisted_run] station ["b"] has two samples and a day net
    of 2, and the snapshot publishes ["a"] only. *)
Lemma unlisted_not_published :
  series unlisted_history "b"
    = [mkSample 1730617000000 4; mkSample 1730617200000 6]
  ∧ (2 ≤ length (series unlisted_history "b"))%nat
  ∧ station_net midnight_utc hourStart_utc publishWindow 1730617500000
      (series unlisted_history "b") = 2
  ∧ stations unlisted_run.1 = [("a", -3)]
  ∧ ¬ (("b", 2) ∈ stations unlisted_run.1
       ↔ (2 ≤ length (series unlisted_history "b"))%nat
         ∧ 2 = station_net midnight_utc hourStart_utc publishWindow
                 1730617500000 (series unlisted_history "b")
         ∧ 2 ≠ 0).
Proof.
  assert (Hs : series unlisted_history "b"
               = [mkSample 1730617000000 4; mkSample 1730617200000 6])
    by (vm_compute; reflexivity).
  assert (Hst : stations unlisted_run.1 = [("a", -3)])
    by (vm_compute; reflexivity).
  assert (Hnet : station_net midnight_utc hourStart_utc publishWindow
                   1730617500000
                   [mkSample 1730617000000 4; mkSample 1730617200000 6] = 2)
    by (vm_compute; reflexivity).
  rewrite Hs, Hst, Hnet. split; [done|]. split; [simpl; lia|].
  split; [done|]. split; [done|].
  intros [_ Hpub]. assert (Hin : ("b", 2) ∈ [("a", -3)]).
  { apply Hpub. split; [simpl; lia|]. split; [reflexivity|discriminate]. }
  apply list_elem_of_In in Hin. destruct Hin as [Heq|[]]. discriminate Heq.
Qed.
